(** * A selectable list widget: [List] and [SingleListItem]

    Shallow embedding of the two React components of the repository
    ([List.jsx] and the [SingleListItem] component listed in the README)
    together with the part of the React runtime they rely on: hooks
    ([useState], [useEffect], [useCallback]), [memo], keyed reconciliation
    of children, [defaultProps] and [propTypes].

    Conventions of the embedding:
    - JavaScript numbers are restricted to mathematical integers ([Z]):
      the only numbers the components produce are array indices.
    - A function value is a reference to a closure; every evaluation of an
      arrow-function expression allocates a new reference.
    - An array is a reference together with its current contents;
      [Object.is] on arrays compares references only. *)

From Stdlib Require Import ZArith Bool Ascii String Lia.
From stdpp Require Import base option list strings.

Local Open Scope string_scope.
Local Open Scope list_scope.
Local Open Scope nat_scope.

(** ** JavaScript values *)

Module JS.

(** Function objects.  [HandleClickClosure n] is the closure
    [(index) => { setSelectedIndex(index); }] allocated by the [n]-th
    evaluation of [WrappedListComponent]'s body; [Opaque n] is any other
    function (one handed to a row by some other parent). *)
Inductive Closure : Type :=
| HandleClickClosure (alloc : nat)
| Opaque (ident : nat).

Inductive JsVal : Type :=
| VUndefined
| VNull
| VBool (b : bool)
| VNum (n : Z)
| VStr (s : string)
| VFun (c : Closure).

Inductive JsError : Type :=
| TypeError (msg : string)
| UpdateDepthExceeded.

Inductive Result (A : Type) : Type :=
| Ok (a : A)
| Throw (e : JsError).
Arguments Ok {A} a.
Arguments Throw {A} e.

Definition closure_eqb (c d : Closure) : bool :=
  match c, d with
  | HandleClickClosure n, HandleClickClosure m => Nat.eqb n m
  | Opaque n, Opaque m => Nat.eqb n m
  | _, _ => false
  end.

(** [typeof v] *)
Inductive JsType : Type :=
| TUndefined | TObject | TBoolean | TNumber | TString | TFunction.

Definition typeof (v : JsVal) : JsType :=
  match v with
  | VUndefined => TUndefined
  | VNull => TObject
  | VBool _ => TBoolean
  | VNum _ => TNumber
  | VStr _ => TString
  | VFun _ => TFunction
  end.

(** [x === y].  On this value domain (no NaN, no signed zero) it
    coincides with [Object.is]. *)
Definition IsStrictlyEqual (x y : JsVal) : bool :=
  match x, y with
  | VUndefined, VUndefined => true
  | VNull, VNull => true
  | VBool a, VBool b => Bool.eqb a b
  | VNum a, VNum b => Z.eqb a b
  | VStr a, VStr b => String.eqb a b
  | VFun c, VFun d => closure_eqb c d
  | _, _ => false
  end.

Definition Object_is (x y : JsVal) : bool := IsStrictlyEqual x y.

(** [ToBoolean v], the test of [c ? a : b]. *)
Definition ToBoolean (v : JsVal) : bool :=
  match v with
  | VUndefined | VNull => false
  | VBool b => b
  | VNum n => negb (Z.eqb n 0)
  | VStr s => negb (String.eqb s "")
  | VFun _ => true
  end.

(** *** [ToNumber] on booleans and strings *)

Definition BooleanToNumber (b : bool) : Z := if b then 1%Z else 0%Z.

Definition is_white_space (c : ascii) : bool :=
  match nat_of_ascii c with
  | 9 | 10 | 11 | 12 | 13 | 32 => true
  | _ => false
  end.

Fixpoint trim_start (s : string) : string :=
  match s with
  | String c s' => if is_white_space c then trim_start s' else s
  | EmptyString => EmptyString
  end.

Fixpoint string_rev_onto (s acc : string) : string :=
  match s with
  | EmptyString => acc
  | String c s' => string_rev_onto s' (String c acc)
  end.

Definition trim (s : string) : string :=
  trim_start (string_rev_onto (trim_start (string_rev_onto (trim_start s) "")) "").

Definition digit_value (c : ascii) : option Z :=
  let n := nat_of_ascii c in
  if (48 <=? n) && (n <=? 57) then Some (Z.of_nat (n - 48)) else None.

Fixpoint decimal_digits (s : string) (acc : Z) : option Z :=
  match s with
  | EmptyString => Some acc
  | String c s' =>
      match digit_value c with
      | Some d => decimal_digits s' (10 * acc + d)%Z
      | None => None
      end
  end.

Definition unsigned_decimal (s : string) : option Z :=
  match s with
  | EmptyString => None
  | _ => decimal_digits s 0%Z
  end.

(** [StringToNumber s] for the strings whose value is an integer written
    as a decimal literal: surrounding white space is dropped, the empty
    string is [0], an optional sign may precede the digits.  [None]
    stands for every other outcome ([NaN], or a literal in another
    notation); such a number is treated as equal to no integer. *)
Definition StringToNumber (s : string) : option Z :=
  match trim s with
  | EmptyString => Some 0%Z
  | String "+" r => unsigned_decimal r
  | String "-" r => Z.opp <$> unsigned_decimal r
  | r => unsigned_decimal r
  end.

(** *** [x == y]

    [IsLooselyEqual x y] returns the result of the comparison and a flag
    telling whether a conversion ([ToNumber] or [ToPrimitive]) was
    applied to an operand on the way. *)
Definition number_eq_opt (a : Z) (b : option Z) : bool :=
  match b with
  | Some b' => Z.eqb a b'
  | None => false
  end.

Definition IsLooselyEqual (x y : JsVal) : bool * bool :=
  match x, y with
  (* operands of the same type: strict comparison *)
  | VUndefined, VUndefined | VNull, VNull => (true, false)
  | VBool a, VBool b => (Bool.eqb a b, false)
  | VNum a, VNum b => (Z.eqb a b, false)
  | VStr a, VStr b => (String.eqb a b, false)
  | VFun c, VFun d => (closure_eqb c d, false)
  (* null and undefined equal each other and nothing else *)
  | VUndefined, VNull | VNull, VUndefined => (true, false)
  | (VUndefined | VNull), (VNum _ | VStr _ | VFun _) => (false, false)
  | (VNum _ | VStr _ | VFun _), (VUndefined | VNull) => (false, false)
  (* number against string: the string is converted *)
  | VNum a, VStr s => (number_eq_opt a (StringToNumber s), true)
  | VStr s, VNum b => (number_eq_opt b (StringToNumber s), true)
  (* a boolean operand is converted to a number, then compared again *)
  | VBool a, VNum b => (Z.eqb (BooleanToNumber a) b, true)
  | VNum a, VBool b => (Z.eqb a (BooleanToNumber b), true)
  | VBool a, VStr s => (number_eq_opt (BooleanToNumber a) (StringToNumber s), true)
  | VStr s, VBool b => (number_eq_opt (BooleanToNumber b) (StringToNumber s), true)
  | VBool _, (VUndefined | VNull) => (false, true)
  | (VUndefined | VNull), VBool _ => (false, true)
  (* a function against a primitive: the function is converted to its
     source text, which is neither a decimal literal nor the text of a
     string handled here *)
  | VFun _, (VBool _ | VNum _ | VStr _) => (false, true)
  | (VBool _ | VNum _ | VStr _), VFun _ => (false, true)
  end.

Definition loose_eq (x y : JsVal) : bool := fst (IsLooselyEqual x y).

(** *** Calls

    A computation that may invoke callbacks and may throw: the list of
    calls it made, in order, and its outcome. *)
Record Call : Type := mkCall { callee : Closure; argument : JsVal }.

Definition Eff (A : Type) : Type := (list Call * Result A)%type.

Definition ret {A} (a : A) : Eff A := ([], Ok a).

Definition bind {A B} (m : Eff A) (k : A -> Eff B) : Eff B :=
  match m with
  | (calls, Ok a) => let '(calls', r) := k a in (calls ++ calls', r)
  | (calls, Throw e) => (calls, Throw e)
  end.

(** [f(arg)].  Calling a value that is not a function throws a
    [TypeError]; the closures of this program are statement-bodied, so a
    call that returns yields [undefined].  A function of another parent is
    taken to return: what it might throw is not modelled. *)
Definition call (f arg : JsVal) : Eff JsVal :=
  match f with
  | VFun c => ([mkCall c arg], Ok VUndefined)
  | _ => ([], Throw (TypeError "onClickHandler is not a function"))
  end.

End JS.

Export JS.

Notation "'do' x <~ m ; k" := (JS.bind m (fun x => k))
  (at level 10, x name, m at level 100, k at level 200).

(** ** The row component, [SingleListItem] *)

Module SingleListItem.

(** The props object a row is rendered with.  A prop that the parent
    does not pass reads as [VUndefined]. *)
Record Props : Type := mkProps {
  index : JsVal;
  isSelected : JsVal;
  onClickHandler : JsVal;
  text : JsVal
}.

(** The value given to [onClick].  [Arrow h a] is the closure
    [() => onClickHandler(index)] with the two values it captured;
    [Detached v] is any value that is not such a closure: a click on the
    element then runs no code of this program. *)
Inductive Listener : Type :=
| Arrow (handler arg : JsVal)
| Detached (v : JsVal).

Record LiElement : Type := mkLi {
  backgroundColor : string;
  onClick : Listener;
  li_children : JsVal
}.

Definition WrappedSingleListItem (p : Props) : Eff LiElement :=
  ret {| backgroundColor := if ToBoolean (isSelected p) then "green" else "red";
         onClick := Arrow (onClickHandler p) (index p);
         li_children := text p |}.

(** The component as it was before fix 7 of the README, where the
    handler is called while the element is built:
    [onClick={onClickHandler(index)}]. *)
Definition WrappedSingleListItem_before_fix (p : Props) : Eff LiElement :=
  do r <~ call (onClickHandler p) (index p);
  ret {| backgroundColor := if ToBoolean (isSelected p) then "green" else "red";
         onClick := Detached r;
         li_children := text p |}.

(** A user click on the rendered element runs its listener. *)
Definition click (li : LiElement) : Eff JsVal :=
  match onClick li with
  | Arrow h a => call h a
  | Detached _ => ret VUndefined
  end.

(** *** [WrappedSingleListItem.propTypes] *)

Inductive PropType : Type := PT_number | PT_bool | PT_func | PT_string.

Record Validator : Type := mkValidator { expected : PropType; isRequired : bool }.

Definition propTypes : list (string * Validator) :=
  [ ("index", mkValidator PT_number true);
    ("isSelected", mkValidator PT_bool true);
    ("onClickHandler", mkValidator PT_func true);
    ("text", mkValidator PT_string true) ].

Inductive Warning : Type :=
| MissingRequired (prop : string)
| InvalidType (prop : string) (wanted : PropType).

Definition get_prop (p : Props) (name : string) : JsVal :=
  if String.eqb name "index" then index p
  else if String.eqb name "isSelected" then isSelected p
  else if String.eqb name "onClickHandler" then onClickHandler p
  else if String.eqb name "text" then text p
  else VUndefined.

Definition has_type (t : PropType) (v : JsVal) : bool :=
  match t, typeof v with
  | PT_number, TNumber | PT_bool, TBoolean
  | PT_func, TFunction | PT_string, TString => true
  | _, _ => false
  end.

(** One validator of the prop-types package: an absent value ([null] or
    [undefined]) is reported when the validator is required and accepted
    otherwise; a present value is checked against the expected type. *)
Definition validate (name : string) (v : Validator) (x : JsVal) : list Warning :=
  match x with
  | VUndefined | VNull => if isRequired v then [MissingRequired name] else []
  | _ => if has_type (expected v) x then [] else [InvalidType name (expected v)]
  end.

(** The development-time check: it returns console warnings and has no
    other effect on rendering. *)
Definition checkPropTypes (p : Props) : list Warning :=
  flat_map (fun nv => validate (fst nv) (snd nv) (get_prop p (fst nv))) propTypes.

(** *** [memo(WrappedSingleListItem)] *)

(** [memo]'s default comparison: [Object.is] on every prop. *)
Definition shallowEqual (a b : Props) : bool :=
  Object_is (index a) (index b)
  && Object_is (isSelected a) (isSelected b)
  && Object_is (onClickHandler a) (onClickHandler b)
  && Object_is (text a) (text b).

(** A mounted row: the key it was created under, the props of its last
    render, the element that render returned, and how many times the
    wrapped component has been run for it. *)
Record Fiber : Type := mkFiber {
  key : string;
  memoizedProps : Props;
  output : LiElement;
  renders : nat
}.

(** An element [<SingleListItem key=.. {...props} />] returned by a
    parent. *)
Record Element : Type := mkElement { el_key : string; el_props : Props }.

(** Updating one child position: the previous row with the same key, if
    any, is reused; the wrapped component is run again only when the
    props are not shallowly equal to the memoized ones.  Keys are taken to
    be distinct among the rows, as React asks of siblings. *)
Definition update (old : list Fiber) (el : Element) : Eff Fiber :=
  match List.find (fun rf => String.eqb (key rf) (el_key el)) old with
  | Some rf =>
      if shallowEqual (memoizedProps rf) (el_props el) then ret rf
      else
        do li <~ WrappedSingleListItem (el_props el);
        ret (mkFiber (el_key el) (el_props el) li (S (renders rf)))
  | None =>
      do li <~ WrappedSingleListItem (el_props el);
      ret (mkFiber (el_key el) (el_props el) li 1)
  end.

Fixpoint reconcile (old : list Fiber) (els : list Element) : Eff (list Fiber) :=
  match els with
  | [] => ret []
  | el :: els' =>
      do rf <~ update old el;
      do rfs <~ reconcile old els';
      ret (rf :: rfs)
  end.

End SingleListItem.

(** ** The list component, [List] *)

Module ListWidget.

Import SingleListItem.

(** One entry of [items]: [{ id, text }], both strings
    ([WrappedListComponent.propTypes]). *)
Record Entry : Type := mkEntry { item_id : string; item_text : string }.

(** The value of the [items] prop: not passed, [null], or an array of
    entries.  The array is taken not to change once it has been passed.
    Elements of another shape are the matter of [ListPropTypes] and
    [RawRender] below. *)
Inductive Items : Type :=
| ItemsUndefined
| ItemsNull
| ItemsArray (ref : nat) (elems : list Entry).

(** [Object.is] on values of the [items] prop. *)
Definition items_is (a b : Items) : bool :=
  match a, b with
  | ItemsUndefined, ItemsUndefined => true
  | ItemsNull, ItemsNull => true
  | ItemsArray r _, ItemsArray r' _ => Nat.eqb r r'
  | _, _ => false
  end.

(** [WrappedListComponent.defaultProps = { items: null }]: the default
    replaces a prop that is [undefined]. *)
Definition defaultProps (items : Items) : Items :=
  match items with
  | ItemsUndefined => ItemsNull
  | _ => items
  end.

(** The three hook cells of the component, in call order; [None] before
    the first render. *)
Record Hooks : Type := mkHooks {
  selectedIndex_cell : option JsVal;   (* useState(null) *)
  effect_deps : option Items;          (* useEffect(..., [items]) *)
  handleClick_cell : option Closure    (* useCallback(..., []) *)
}.

Record UlElement : Type := mkUl {
  textAlign : string;
  children : list Element
}.

(** What one evaluation of the component's body yields: the returned
    element ([None] for [null]), the hook cells to commit, and whether
    the effect is scheduled to run after the commit. *)
Record Rendered : Type := mkRendered {
  r_element : option UlElement;
  r_hooks : Hooks;
  r_effect : bool
}.

(** The child built for [item] at position [index]. *)
Definition row_element (selectedIndex : JsVal) (handleClick : Closure)
    (index : nat) (item : Entry) : Element :=
  {| el_key := item_id item;
     el_props :=
       {| onClickHandler := VFun handleClick;
          text := VStr (item_text item);
          index := VNum (Z.of_nat index);
          isSelected := VBool (loose_eq selectedIndex (VNum (Z.of_nat index))) |} |}.

(** The body of the component.  [fresh] is the reference the arrow
    function passed to [useCallback] gets in this evaluation. *)
Definition WrappedListComponent (items : Items) (h : Hooks) (fresh : nat) : Rendered :=
  (* const [selectedIndex, setSelectedIndex] = useState(null); *)
  let selectedIndex := default VNull (selectedIndex_cell h) in
  (* useEffect(() => { setSelectedIndex(null); }, [items]); *)
  let effect :=
    match effect_deps h with
    | None => true
    | Some previous => negb (items_is previous items)
    end in
  (* const handleClick = useCallback((index) => {...}, []); *)
  let handleClick := default (HandleClickClosure fresh) (handleClick_cell h) in
  let h' := mkHooks (Some selectedIndex) (Some items) (Some handleClick) in
  let element :=
    match items with
    | ItemsUndefined | ItemsNull => None            (* items == null *)
    | ItemsArray _ elems =>
        if loose_eq (VNum (Z.of_nat (length elems))) (VNum 0) then None
        else Some (mkUl "left" (imap (row_element selectedIndex handleClick) elems))
    end in
  mkRendered element h' effect.

(** *** The mounted component *)

Inductive Phase : Type := Rendering | ClickEvent.

Record Fiber : Type := mkListFiber {
  props : Items;                       (* the [items] prop as passed *)
  hooks : Hooks;
  element : option UlElement;          (* last element returned *)
  rows : list SingleListItem.Fiber;    (* the mounted children *)
  allocated : nat;                     (* closures allocated so far *)
  render_count : nat;
  calls : list (Phase * Call)          (* every callback invocation *)
}.

Definition selectedIndex (f : Fiber) : JsVal :=
  default VNull (selectedIndex_cell (hooks f)).

Definition with_props (items : Items) (f : Fiber) : Fiber :=
  mkListFiber items (hooks f) (element f) (rows f) (allocated f)
    (render_count f) (calls f).

Definition with_state (v : JsVal) (f : Fiber) : Fiber :=
  mkListFiber (props f)
    (mkHooks (Some v) (effect_deps (hooks f)) (handleClick_cell (hooks f)))
    (element f) (rows f) (allocated f) (render_count f) (calls f).

Definition log (ph : Phase) (cs : list Call) (f : Fiber) : Fiber :=
  mkListFiber (props f) (hooks f) (element f) (rows f) (allocated f)
    (render_count f) (calls f ++ map (pair ph) cs).

(** One render pass and its commit: the body is evaluated on the
    resolved props, the children are reconciled against the mounted
    rows.  The flag tells whether the effect has to run. *)
Definition render_commit (f : Fiber) : Result (Fiber * bool) :=
  let r := WrappedListComponent (defaultProps (props f)) (hooks f) (allocated f) in
  let els := match r_element r with Some ul => children ul | None => [] end in
  match reconcile (rows f) els with
  | (cs, Ok rows') =>
      Ok (log Rendering cs
            (mkListFiber (props f) (r_hooks r) (r_element r) rows'
               (S (allocated f)) (S (render_count f)) (calls f)),
          r_effect r)
  | (_, Throw e) => Throw e
  end.

(** The limit after which React gives up on nested updates. *)
Definition NESTED_UPDATE_LIMIT : nat := 50.

(** Render, commit, run the effect [setSelectedIndex(null)] when it is
    scheduled, and render again if that changed the state.  The commit
    that comes before the effect, where a new collection is shown with the
    selection of the previous one, is gone through within the event. *)
Fixpoint render_loop (fuel : nat) (f : Fiber) : Result Fiber :=
  match fuel with
  | 0 => Throw UpdateDepthExceeded
  | S fuel' =>
      match render_commit f with
      | Throw e => Throw e
      | Ok (f', false) => Ok f'
      | Ok (f', true) =>
          if Object_is (selectedIndex f') VNull then Ok f'
          else render_loop fuel' (with_state VNull f')
      end
  end.

(** The state setter returned by [useState], on the values the component
    gives it, a position or [null] (a function would be applied as an
    updater, which is not modelled).  Setting the current value again
    changes nothing. *)
Definition setSelectedIndex (v : JsVal) (f : Fiber) : Result Fiber :=
  if Object_is (selectedIndex f) v then Ok f
  else render_loop NESTED_UPDATE_LIMIT (with_state v f).

Definition handleClick (index : JsVal) (f : Fiber) : Result Fiber :=
  setSelectedIndex index f.

(** Running a callback invoked from a click: the closures made by this
    component run [handleClick]'s body; a foreign function does not touch
    this component. *)
Definition run_call (c : Call) (f : Fiber) : Result Fiber :=
  let f := log ClickEvent [c] f in
  match callee c with
  | HandleClickClosure _ => handleClick (argument c) f
  | Opaque _ => Ok f
  end.

Fixpoint run_calls (cs : list Call) (f : Fiber) : Result Fiber :=
  match cs with
  | [] => Ok f
  | c :: cs' =>
      match run_call c f with
      | Ok f' => run_calls cs' f'
      | Throw e => Throw e
      end
  end.

(** *** Events *)

Inductive Event : Type :=
| SetItems (items : Items)   (* the parent renders [<List items=.. />] *)
| Click (k : nat).           (* the user clicks the [k]-th [li] *)

Definition unmounted (items : Items) : Fiber :=
  mkListFiber items (mkHooks None None None) None [] 0 0 [].

Definition mount (items : Items) : Result Fiber :=
  render_loop NESTED_UPDATE_LIMIT (unmounted items).

Definition step (f : Fiber) (ev : Event) : Result Fiber :=
  match ev with
  | SetItems items' =>
      (* [memo(WrappedListComponent)] compares the props once the default
         has been filled in and skips the render when they are equal:
         the same reference, or [undefined] for [null] (and the reverse),
         in which case the fiber still records the props it was passed *)
      if items_is (props f) items' then Ok f
      else if items_is (defaultProps (props f)) (defaultProps items')
      then Ok (with_props items' f)
      else render_loop NESTED_UPDATE_LIMIT (with_props items' f)
  | Click k =>
      match rows f !! k with
      | None => Ok f
      | Some rf =>
          match click (output rf) with
          | (cs, Ok _) => run_calls cs f
          | (cs, Throw e) =>
              match run_calls cs f with
              | Ok _ => Throw e
              | Throw e' => Throw e'
              end
          end
      end
  end.

Fixpoint steps (f : Fiber) (evs : list Event) : Result Fiber :=
  match evs with
  | [] => Ok f
  | ev :: evs' =>
      match step f ev with
      | Ok f' => steps f' evs'
      | Throw e => Throw e
      end
  end.

(** Mount with [items], then process the events in order. *)
Definition run (items : Items) (evs : list Event) : Result Fiber :=
  match mount items with
  | Ok f => steps f evs
  | Throw e => Throw e
  end.

(** What the user sees: for every row its key, text, colour. *)
Definition view (f : Fiber) : list (string * JsVal * string) :=
  map (fun rf => (key rf, li_children (output rf), backgroundColor (output rf))) (rows f).

End ListWidget.

(** ** [WrappedListComponent.propTypes] *)

Module ListPropTypes.

Import SingleListItem ListWidget.

(** An element of the array passed as [items], as the check sees it: an
    absent value ([null] or [undefined]), an object with the values of its
    [id] and [text] fields ([VUndefined] for a field it lacks), or a value
    that is not an object. *)
Inductive RawEntry : Type :=
| EntryAbsent
| EntryObject (id_field text_field : JsVal)
| EntryNotObject (v : JsVal).

(** The [items] prop as the check sees it. *)
Inductive RawItems : Type :=
| RawAbsent
| RawArray (elems : list RawEntry)
| RawNotArray (v : JsVal).

(** The check stops at the first failure, so it reports at most one
    warning, which names the position and the field at fault. *)
Inductive ListWarning : Type :=
| ExpectedArray
| ExpectedObject (position : nat)
| FieldRequired (position : nat) (field : string)
| FieldInvalid (position : nat) (field : string).

(** [PropTypes.string.isRequired] on one field of the element at
    [position]. *)
Definition check_field (position : nat) (field : string) (x : JsVal) : option ListWarning :=
  match validate field (mkValidator PT_string true) x with
  | [] => None
  | MissingRequired _ :: _ => Some (FieldRequired position field)
  | InvalidType _ _ :: _ => Some (FieldInvalid position field)
  end.

(** [PropTypes.shape({ text: ..., id: ... })], not required: an absent
    element is accepted; the fields are checked in the order the shape
    lists them. *)
Definition check_shape (position : nat) (e : RawEntry) : option ListWarning :=
  match e with
  | EntryAbsent => None
  | EntryNotObject _ => Some (ExpectedObject position)
  | EntryObject id_field text_field =>
      match check_field position "text" text_field with
      | Some w => Some w
      | None => check_field position "id" id_field
      end
  end.

(** [PropTypes.arrayOf(...)] on the elements from [position] on. *)
Fixpoint check_arrayOf (position : nat) (es : list RawEntry) : option ListWarning :=
  match es with
  | [] => None
  | e :: es' =>
      match check_shape position e with
      | Some w => Some w
      | None => check_arrayOf (S position) es'
      end
  end.

(** The check of the [items] prop, which is not required. *)
Definition check_items (items : RawItems) : option ListWarning :=
  match items with
  | RawAbsent => None
  | RawNotArray _ => Some ExpectedArray
  | RawArray es => check_arrayOf 0 es
  end.

(** The collections of the data model, seen as raw values. *)
Definition raw_of_entry (e : Entry) : RawEntry :=
  EntryObject (VStr (item_id e)) (VStr (item_text e)).

Definition raw_of (items : Items) : RawItems :=
  match items with
  | ItemsUndefined | ItemsNull => RawAbsent
  | ItemsArray _ es => RawArray (map raw_of_entry es)
  end.

(** The position a warning is about. *)
Definition warned_position (w : ListWarning) : option nat :=
  match w with
  | ExpectedArray => None
  | ExpectedObject i | FieldRequired i _ | FieldInvalid i _ => Some i
  end.

End ListPropTypes.

(** ** The [map] of [List] on elements of any shape *)

Module RawRender.

Import SingleListItem ListWidget ListPropTypes.

(** What evaluating an expression on such an element yields: a value, or
    the [TypeError] of reading a property of [null] or [undefined]. *)
Inductive Outcome (A : Type) : Type :=
| Returned (a : A)
| ThrewTypeError.
Arguments Returned {A} a.
Arguments ThrewTypeError {A}.

(** [item.id] and [item.text]: reading a property of an absent value
    throws; a value that is not an object has neither property. *)
Definition read_id (item : RawEntry) : Outcome JsVal :=
  match item with
  | EntryAbsent => ThrewTypeError
  | EntryObject id_field _ => Returned id_field
  | EntryNotObject _ => Returned VUndefined
  end.

Definition read_text (item : RawEntry) : Outcome JsVal :=
  match item with
  | EntryAbsent => ThrewTypeError
  | EntryObject _ text_field => Returned text_field
  | EntryNotObject _ => Returned VUndefined
  end.

(** The element the callback builds: its key is whatever [item.id] is. *)
Record RawElement : Type := mkRawElement { raw_key : JsVal; raw_props : Props }.

Definition raw_row_element (selectedIndex : JsVal) (handleClick : Closure)
    (index : nat) (item : RawEntry) : Outcome RawElement :=
  match read_id item, read_text item with
  | Returned k, Returned t =>
      Returned
        {| raw_key := k;
           raw_props :=
             {| onClickHandler := VFun handleClick;
                text := t;
                index := VNum (Z.of_nat index);
                isSelected := VBool (loose_eq selectedIndex (VNum (Z.of_nat index))) |} |}
  | _, _ => ThrewTypeError
  end.

(** [items.map(callback)] from position [index] on: an exception thrown by
    the callback ends the whole [map]. *)
Fixpoint map_rows (selectedIndex : JsVal) (handleClick : Closure)
    (index : nat) (items : list RawEntry) : Outcome (list RawElement) :=
  match items with
  | [] => Returned []
  | item :: items' =>
      match raw_row_element selectedIndex handleClick index item with
      | ThrewTypeError => ThrewTypeError
      | Returned el =>
          match map_rows selectedIndex handleClick (S index) items' with
          | ThrewTypeError => ThrewTypeError
          | Returned els => Returned (el :: els)
          end
      end
  end.

(** An element of the typed model, as an element with a raw key. *)
Definition raw_element (el : Element) : RawElement :=
  {| raw_key := VStr (el_key el); raw_props := el_props el |}.

End RawRender.

Import SingleListItem ListWidget ListPropTypes RawRender.

(** * Vocabulary of the proofs *)

(** A mounted row is coherent when its stored element is what the wrapped
    component returns on its stored props. *)
Definition row_ok (rf : SingleListItem.Fiber) : Prop :=
  WrappedSingleListItem (memoizedProps rf) = ret (output rf).

(** [rf] is the mounted row of the element [el]. *)
Definition row_of (el : Element) (rf : SingleListItem.Fiber) : Prop :=
  key rf = el_key el /\ memoizedProps rf = el_props el /\ row_ok rf.

(** The closure [useCallback] hands out at the next render of [f]. *)
Definition handler (f : ListWidget.Fiber) : Closure :=
  default (HandleClickClosure (allocated f)) (handleClick_cell (hooks f)).

(** Whether the next render of [f] schedules the effect. *)
Definition effect_needed (f : ListWidget.Fiber) : bool :=
  match effect_deps (hooks f) with
  | None => true
  | Some previous => negb (items_is previous (defaultProps (props f)))
  end.

(** The row elements a render with state [s] and handler [c] returns for
    [items], and the element that holds them. *)
Definition rendered_children (s : JsVal) (c : Closure) (items : Items) : list Element :=
  match items with
  | ItemsArray _ elems => imap (row_element s c) elems
  | _ => []
  end.

Definition rendered_element (s : JsVal) (c : Closure) (items : Items) : option UlElement :=
  match items with
  | ItemsArray _ (e :: elems) => Some (mkUl "left" (imap (row_element s c) (e :: elems)))
  | _ => None
  end.

(** The state a fiber is in between two events: the hook cells, the
    element and the mounted rows are those of a render of the current
    props and state. *)
Record Settled (f : ListWidget.Fiber) : Prop := mkSettled {
  settled_hooks :
    hooks f = mkHooks (Some (selectedIndex f)) (Some (defaultProps (props f)))
                (Some (handler f));
  settled_element :
    element f = rendered_element (selectedIndex f) (handler f) (defaultProps (props f));
  settled_rows :
    Forall2 row_of
      (rendered_children (selectedIndex f) (handler f) (defaultProps (props f)))
      (rows f)
}.

(** The entries currently rendered: those of the array, none when [items]
    is absent. *)
Definition entries (items : Items) : list Entry :=
  match items with
  | ItemsArray _ elems => elems
  | _ => []
  end.

(** A recorded invocation that is a click on a row: made in a click
    event, on the list's handler, with a position as argument. *)
Definition row_click (pc : Phase * Call) : Prop :=
  fst pc = ClickEvent
  /\ callee (snd pc) = HandleClickClosure 0
  /\ exists k : nat, argument (snd pc) = VNum (Z.of_nat k).

(** What holds of the mounted list after every event. *)
Record Inv (f : ListWidget.Fiber) : Prop := mkInv {
  inv_settled : Settled f;
  (* the handler is the closure allocated by the mounting render *)
  inv_handler : handler f = HandleClickClosure 0;
  (* nothing is selected, or the position of a mounted row is *)
  inv_selected :
    selectedIndex f = VNull
    \/ exists k : nat, k < length (rows f) /\ selectedIndex f = VNum (Z.of_nat k);
  (* callbacks have been invoked from click events only *)
  inv_calls : Forall row_click (calls f)
}.

(** The collection of the README's scenario, and two states of it. *)
Definition fruits : Items :=
  ItemsArray 1 [mkEntry "a" "Apple"; mkEntry "b" "Banana"].

(** The fiber a run ends in (the unmounted fiber if it threw). *)
Definition final (items : Items) (evs : list Event) : ListWidget.Fiber :=
  match run items evs with
  | Ok f => f
  | Throw _ => unmounted items
  end.

Definition fruits_mounted : ListWidget.Fiber := Eval vm_compute in final fruits [].

(** [items] is [undefined], [null] or an array of length zero. *)
Definition absent_or_empty (items : Items) : bool :=
  match items with
  | ItemsUndefined | ItemsNull | ItemsArray _ [] => true
  | ItemsArray _ (_ :: _) => false
  end.

Definition banana_selected : ListWidget.Fiber :=
  Eval vm_compute in final fruits [Click 1].

(** A collection of three entries, and the state after a click on the
    second. *)
Definition vegetables : Items :=
  ItemsArray 3 [mkEntry "k" "Kale"; mkEntry "l" "Leek"; mkEntry "m" "Mint"].

Definition leek_selected : ListWidget.Fiber :=
  Eval vm_compute in final vegetables [Click 1].

Definition mint_selected : ListWidget.Fiber :=
  Eval vm_compute in final vegetables [Click 1; Click 2].

(** The list of fruits after "Banana" was selected and the collection
    replaced by a single "Cherry". *)
Definition cherry_only : ListWidget.Fiber :=
  Eval vm_compute in
    final fruits [Click 1; SetItems (ItemsArray 2 [mkEntry "c" "Cherry"])].

(** An element the check of [items] accepts: absent, or an object whose
    [id] and [text] are strings. *)
Definition entry_accepted (e : RawEntry) : Prop :=
  e = EntryAbsent \/ exists i t : string, e = EntryObject (VStr i) (VStr t).

(** The invocations an event adds to the record of calls. *)
Definition invocations (f : ListWidget.Fiber) (ev : Event) : list (Phase * Call) :=
  match ev with
  | SetItems _ => []
  | Click k =>
      if bool_decide (k < length (rows f))
      then [(ClickEvent, mkCall (HandleClickClosure 0) (VNum (Z.of_nat k)))]
      else []
  end.

(** * Properties *)

(** ** Equality of values *)

Lemma closure_eqb_eq (c d : Closure) : closure_eqb c d = true <-> c = d.
Proof.
  destruct c, d; simpl; rewrite ?Nat.eqb_eq; split; intros H;
    try discriminate; try (inversion H; reflexivity); congruence.
Qed.

Lemma IsStrictlyEqual_eq (x y : JsVal) : IsStrictlyEqual x y = true <-> x = y.
Proof.
  destruct x, y; simpl; split; intros H; try discriminate; try reflexivity.
  - apply Bool.eqb_prop in H. congruence.
  - inversion H. apply Bool.eqb_reflx.
  - apply Z.eqb_eq in H. congruence.
  - inversion H. apply Z.eqb_refl.
  - apply String.eqb_eq in H. congruence.
  - inversion H. apply String.eqb_refl.
  - apply closure_eqb_eq in H. congruence.
  - inversion H. apply closure_eqb_eq. reflexivity.
Qed.

Lemma Object_is_eq (x y : JsVal) : Object_is x y = true <-> x = y.
Proof. apply IsStrictlyEqual_eq. Qed.

Lemma Object_is_refl (x : JsVal) : Object_is x x = true.
Proof. apply Object_is_eq. reflexivity. Qed.

Lemma shallowEqual_eq (a b : Props) : shallowEqual a b = true <-> a = b.
Proof.
  unfold shallowEqual. rewrite !andb_true_iff, !Object_is_eq.
  destruct a, b; simpl. split.
  - intros [[[-> ->] ->] ->]. reflexivity.
  - intros H. inversion H. auto.
Qed.

Lemma items_is_refl (items : Items) : items_is items items = true.
Proof. destruct items; simpl; auto using Nat.eqb_refl. Qed.

(** On a number operand on the right, [==] converts only a string or a
    boolean on the left. *)
Lemma loose_eq_number (z i : Z) : loose_eq (VNum z) (VNum i) = Z.eqb z i.
Proof. reflexivity. Qed.

Lemma loose_eq_null_number (i : Z) : loose_eq VNull (VNum i) = false.
Proof. reflexivity. Qed.

(** ** Rows *)

Lemma find_key (old : list SingleListItem.Fiber) (k : string) rf :
  List.find (fun rf => String.eqb (key rf) k) old = Some rf ->
  rf ∈ old /\ key rf = k.
Proof.
  intros H. apply List.find_some in H as [Hin Hk].
  split; [by apply list_elem_of_In | by apply String.eqb_eq].
Qed.

Lemma update_spec (old : list SingleListItem.Fiber) (el : Element) :
  Forall row_ok old ->
  exists rf, update old el = ret rf /\ row_of el rf.
Proof.
  intros Hold. unfold update.
  destruct (List.find _ old) as [rf|] eqn:Hfind.
  - apply find_key in Hfind as [Hin Hk].
    destruct (shallowEqual (memoizedProps rf) (el_props el)) eqn:Hsh.
    + exists rf. split; [reflexivity|].
      apply shallowEqual_eq in Hsh.
      rewrite Forall_forall in Hold. repeat split; auto.
    + eexists. split; [reflexivity|]. repeat split.
  - eexists. split; [reflexivity|]. repeat split.
Qed.

Lemma reconcile_spec (old : list SingleListItem.Fiber) (els : list Element) :
  Forall row_ok old ->
  exists rfs, reconcile old els = ret rfs /\ Forall2 row_of els rfs.
Proof.
  intros Hold. induction els as [|el els IH]; simpl.
  - exists []. split; [reflexivity | constructor].
  - destruct (update_spec old el Hold) as (rf & -> & Hrf).
    destruct IH as (rfs & -> & Hrfs).
    exists (rf :: rfs). split; [reflexivity | by constructor].
Qed.

Lemma Forall2_row_of_ok els rfs : Forall2 row_of els rfs -> Forall row_ok rfs.
Proof.
  induction 1 as [|el rf els rfs (_ & _ & Hok) _ IH]; constructor; auto.
Qed.

(** ** One render pass *)

Lemma WrappedListComponent_element items h n :
  r_element (WrappedListComponent items h n)
  = rendered_element (default VNull (selectedIndex_cell h))
      (default (HandleClickClosure n) (handleClick_cell h)) items.
Proof. destruct items as [| |r [|e elems]]; reflexivity. Qed.

Lemma rendered_element_children s c items :
  match rendered_element s c items with
  | Some ul => children ul
  | None => []
  end = rendered_children s c items.
Proof. destruct items as [| |r [|e elems]]; reflexivity. Qed.

Lemma render_commit_spec (f : ListWidget.Fiber) :
  Forall row_ok (rows f) ->
  exists rows',
    render_commit f
    = Ok (mkListFiber (props f)
            (mkHooks (Some (selectedIndex f)) (Some (defaultProps (props f)))
               (Some (handler f)))
            (rendered_element (selectedIndex f) (handler f) (defaultProps (props f)))
            rows' (S (allocated f)) (S (render_count f)) (calls f),
          effect_needed f)
    /\ Forall2 row_of
         (rendered_children (selectedIndex f) (handler f) (defaultProps (props f)))
         rows'
    /\ reconcile (rows f)
         (rendered_children (selectedIndex f) (handler f) (defaultProps (props f)))
       = ret rows'.
Proof.
  intros Hok. unfold render_commit.
  rewrite WrappedListComponent_element.
  fold (selectedIndex f). fold (handler f).
  rewrite rendered_element_children.
  destruct (reconcile_spec (rows f)
              (rendered_children (selectedIndex f) (handler f) (defaultProps (props f)))
              Hok) as (rows' & Hrec & Hrows).
  rewrite Hrec. exists rows'. split; [|by split].
  unfold log, effect_needed. simpl. rewrite app_nil_r. reflexivity.
Qed.

(** A render pass followed by its effect settles within two passes; the
    outcome is described field by field. *)
Lemma render_loop_spec (n : nat) (f : ListWidget.Fiber) :
  Forall row_ok (rows f) ->
  exists f',
    render_loop (S (S n)) f = Ok f'
    /\ Settled f'
    /\ props f' = props f
    /\ handler f' = handler f
    /\ selectedIndex f' = (if effect_needed f then VNull else selectedIndex f)
    /\ calls f' = calls f
    /\ allocated f < allocated f'
    /\ render_count f < render_count f'
    /\ (effect_needed f = false ->
        reconcile (rows f)
          (rendered_children (selectedIndex f) (handler f) (defaultProps (props f)))
        = ret (rows f')).
Proof.
  intros Hok.
  destruct (render_commit_spec f Hok) as (rows1 & Hrc & Hrows1 & Hrec1).
  cbn [render_loop]. rewrite Hrc.
  set (f1 := mkListFiber _ _ _ rows1 _ _ _) in *.
  assert (Hset1 : Settled f1) by (constructor; assumption || reflexivity).
  destruct (effect_needed f) eqn:Heff.
  - (* the effect runs: setSelectedIndex(null) *)
    change (selectedIndex f1) with (selectedIndex f).
    destruct (Object_is (selectedIndex f) VNull) eqn:Hnull.
    + apply Object_is_eq in Hnull.
      exists f1. repeat split; try apply Hset1; simpl; auto with lia.
    + assert (Hok1 : Forall row_ok (rows (with_state VNull f1))).
      { simpl. eapply Forall2_row_of_ok, Hrows1. }
      destruct (render_commit_spec (with_state VNull f1) Hok1) as (rows2 & Hrc2 & Hrows2 & _).
      rewrite Hrc2.
      assert (Hno : effect_needed (with_state VNull f1) = false).
      { unfold effect_needed. simpl. by rewrite items_is_refl. }
      rewrite Hno.
      eexists. split; [reflexivity|].
      repeat split; simpl; auto with lia.
  - exists f1. repeat split; try apply Hset1; simpl; auto with lia.
Qed.

(** ** Rows of a settled fiber *)

Lemma entries_defaultProps items : entries (defaultProps items) = entries items.
Proof. by destruct items. Qed.

Lemma rendered_children_imap s c items :
  rendered_children s c items = imap (row_element s c) (entries items).
Proof. by destruct items. Qed.

Lemma row_output (p : Props) (rf : SingleListItem.Fiber) :
  memoizedProps rf = p -> row_ok rf ->
  output rf = mkLi (if ToBoolean (isSelected p) then "green" else "red")
                (Arrow (onClickHandler p) (index p)) (text p).
Proof.
  intros <- Hok. unfold row_ok, WrappedSingleListItem, ret in Hok.
  by injection Hok as <-.
Qed.

Lemma Settled_length f : Settled f -> length (rows f) = length (entries (props f)).
Proof.
  intros [_ _ Hrows]. apply Forall2_length in Hrows.
  rewrite rendered_children_imap, length_imap, entries_defaultProps in Hrows.
  by symmetry.
Qed.

(** Row [i] of a settled fiber is the row of entry [i]. *)
Lemma Settled_row f i :
  Settled f ->
  forall rf, rows f !! i = Some rf ->
  exists item,
    entries (props f) !! i = Some item
    /\ row_of (row_element (selectedIndex f) (handler f) i item) rf.
Proof.
  intros [_ _ Hrows] rf Hrf.
  destruct (Forall2_lookup_r _ _ _ _ _ Hrows Hrf) as (el & Hel & Hof).
  rewrite rendered_children_imap, entries_defaultProps in Hel.
  apply list_lookup_imap_Some in Hel as (item & Hitem & ->).
  by exists item.
Qed.

Lemma Settled_entry f i item :
  Settled f ->
  entries (props f) !! i = Some item ->
  exists rf,
    rows f !! i = Some rf
    /\ row_of (row_element (selectedIndex f) (handler f) i item) rf.
Proof.
  intros Hs Hitem.
  destruct (lookup_lt_is_Some_2 (rows f) i) as [rf Hrf].
  { rewrite (Settled_length f Hs). by eapply lookup_lt_Some. }
  exists rf. split; [done|].
  destruct (Settled_row f i Hs rf Hrf) as (item' & Hitem' & Hof).
  congruence.
Qed.

Lemma Settled_row_ok f : Settled f -> Forall row_ok (rows f).
Proof. intros [_ _ Hrows]. eapply Forall2_row_of_ok, Hrows. Qed.

Lemma Settled_log ph cs f : Settled f -> Settled (log ph cs f).
Proof. intros [H1 H2 H3]. by constructor. Qed.

Lemma Settled_effect_needed f items :
  Settled f ->
  effect_needed (with_props items f)
  = negb (items_is (defaultProps (props f)) (defaultProps items)).
Proof. intros [H _ _]. unfold effect_needed. simpl. by rewrite H. Qed.

(** ** The click handler *)

(** [handleClick] stores whatever value it is given and renders again. *)
Lemma handleClick_spec (f : ListWidget.Fiber) (p : JsVal) :
  Settled f ->
  exists f',
    handleClick p f = Ok f'
    /\ Settled f'
    /\ selectedIndex f' = p
    /\ props f' = props f
    /\ handler f' = handler f
    /\ calls f' = calls f
    /\ (rows f' = rows f
        \/ reconcile (rows f) (rendered_children p (handler f) (defaultProps (props f)))
           = ret (rows f')).
Proof.
  intros Hs. unfold handleClick, setSelectedIndex.
  destruct (Object_is (selectedIndex f) p) eqn:Hsame.
  - apply Object_is_eq in Hsame. exists f. repeat split; auto.
    all: try apply Hs.
  - change NESTED_UPDATE_LIMIT with (S (S 48)).
    destruct (render_loop_spec 48 (with_state p f))
      as (f' & Hrun & Hs' & Hp & Hh & Hsel & Hc & _ & _ & Hrec).
    { change (Forall row_ok (rows f)). apply Settled_row_ok, Hs. }
    exists f'. split; [exact Hrun|].
    assert (Hno : effect_needed (with_state p f) = false).
    { destruct Hs as [H _ _]. unfold effect_needed. simpl. rewrite H. simpl.
      by rewrite items_is_refl. }
    rewrite Hno in Hsel. repeat split; try apply Hs'; auto.
Qed.

(** ** The invariant of a mounted list *)

Lemma mount_spec (items : Items) :
  exists f,
    mount items = Ok f /\ Inv f /\ props f = items /\ selectedIndex f = VNull.
Proof.
  unfold mount. change NESTED_UPDATE_LIMIT with (S (S 48)).
  destruct (render_loop_spec 48 (unmounted items)) as
    (f & Hrun & Hs & Hp & Hh & Hsel & Hc & _); [constructor|].
  exists f. split; [exact Hrun|]. simpl in *.
  split; [|by split].
  constructor; auto. rewrite Hc. constructor.
Qed.

(** The two raw values that resolve to the same [items] are [undefined]
    and [null]; nothing is rendered for either. *)
Lemma resolved_same_absent a b :
  items_is a b = false ->
  items_is (defaultProps a) (defaultProps b) = true ->
  entries a = [].
Proof. destruct a, b; simpl; congruence. Qed.

Lemma resolved_same_null a b :
  items_is a b = false ->
  items_is (defaultProps a) (defaultProps b) = true ->
  defaultProps a = ItemsNull /\ defaultProps b = ItemsNull.
Proof. destruct a, b; simpl; try done; congruence. Qed.

Lemma step_SetItems_spec (f : ListWidget.Fiber) (items' : Items) :
  Inv f ->
  items_is (props f) items' = false ->
  exists f',
    step f (SetItems items') = Ok f'
    /\ Inv f' /\ props f' = items' /\ selectedIndex f' = VNull.
Proof.
  intros [Hs Hh Hsel Hc] Hne. cbn [step]. rewrite Hne.
  destruct (items_is (defaultProps (props f)) (defaultProps items')) eqn:Hres.
  - (* [undefined] for [null] or the reverse: no render *)
    destruct (resolved_same_null _ _ Hne Hres) as [Hold Hnew].
    assert (Hnull : selectedIndex f = VNull).
    { destruct Hsel as [Hn | (k & Hk & _)]; [exact Hn|].
      rewrite (Settled_length f Hs), (resolved_same_absent _ _ Hne Hres) in Hk.
      simpl in Hk. lia. }
    exists (with_props items' f). split; [reflexivity|].
    split; [|by split].
    destruct Hs as [H1 H2 H3].
    constructor; [constructor|..]; cbn [props with_props]; try done.
    + change (hooks (with_props items' f)) with (hooks f).
      change (selectedIndex (with_props items' f)) with (selectedIndex f).
      change (handler (with_props items' f)) with (handler f).
      by rewrite Hnew, <- Hold.
    + change (element (with_props items' f)) with (element f).
      change (selectedIndex (with_props items' f)) with (selectedIndex f).
      change (handler (with_props items' f)) with (handler f).
      by rewrite Hnew, <- Hold.
    + change (rows (with_props items' f)) with (rows f).
      change (selectedIndex (with_props items' f)) with (selectedIndex f).
      change (handler (with_props items' f)) with (handler f).
      by rewrite Hnew, <- Hold.
  - change NESTED_UPDATE_LIMIT with (S (S 48)).
    destruct (render_loop_spec 48 (with_props items' f)) as
      (f' & Hrun & Hs' & Hp & Hh' & Hsel' & Hc' & _).
    { change (Forall row_ok (rows f)). apply Settled_row_ok, Hs. }
    exists f'. split; [exact Hrun|].
    assert (Hnull : selectedIndex f' = VNull).
    { by rewrite Hsel', (Settled_effect_needed f items' Hs), Hres. }
    split; [|by split].
    constructor; auto.
    + by rewrite Hh'.
    + by rewrite Hc'.
Qed.

Lemma step_Click_spec (f : ListWidget.Fiber) (k : nat) :
  Inv f ->
  k < length (rows f) ->
  exists f',
    step f (Click k) = Ok f'
    /\ Inv f'
    /\ props f' = props f
    /\ selectedIndex f' = VNum (Z.of_nat k)
    /\ calls f' = calls f ++ [(ClickEvent, mkCall (HandleClickClosure 0) (VNum (Z.of_nat k)))]
    /\ (rows f' = rows f
        \/ reconcile (rows f)
             (rendered_children (VNum (Z.of_nat k)) (HandleClickClosure 0)
                (defaultProps (props f)))
           = ret (rows f')).
Proof.
  intros [Hs Hh Hsel Hc] Hk. simpl.
  destruct (lookup_lt_is_Some_2 (rows f) k Hk) as [rf Hrf]. rewrite Hrf.
  destruct (Settled_row f k Hs rf Hrf) as (item & Hitem & _ & Hprops & Hok).
  rewrite (row_output _ rf Hprops Hok). rewrite Hh. simpl.
  set (c := mkCall _ _).
  destruct (handleClick_spec (log ClickEvent [c] f) (VNum (Z.of_nat k)))
    as (f' & Hrun & Hs' & Hsel' & Hp' & Hh' & Hc' & Hrows'); [by apply Settled_log|].
  unfold run_call. simpl. rewrite Hrun.
  exists f'. split; [reflexivity|]. split.
  2:{ repeat split; auto. change (handler (log ClickEvent [c] f)) with (handler f) in Hrows'.
      by rewrite Hh in Hrows'. }
  constructor; auto.
  - by rewrite Hh'.
  - right. exists k. split; [|exact Hsel'].
    rewrite (Settled_length f' Hs'), Hp'. simpl.
    by rewrite <- (Settled_length f Hs).
  - rewrite Hc'. simpl. apply Forall_app. split; [exact Hc|].
    repeat constructor. by exists k.
Qed.

Lemma step_Inv (f : ListWidget.Fiber) (ev : Event) :
  Inv f -> exists f', step f ev = Ok f' /\ Inv f'.
Proof.
  intros Hinv. destruct ev as [items'|k].
  - destruct (items_is (props f) items') eqn:His.
    + exists f. cbn [step]. by rewrite His.
    + destruct (step_SetItems_spec f items' Hinv His) as (f' & ? & ? & _). eauto.
  - destruct (decide (k < length (rows f))) as [Hk|Hk].
    + destruct (step_Click_spec f k Hinv Hk) as (f' & ? & ? & _). eauto.
    + exists f. simpl. rewrite lookup_ge_None_2 by lia. auto.
Qed.

Lemma steps_Inv (evs : list Event) (f : ListWidget.Fiber) :
  Inv f -> exists f', steps f evs = Ok f' /\ Inv f'.
Proof.
  revert f. induction evs as [|ev evs IH]; intros f Hinv; simpl.
  - eauto.
  - destruct (step_Inv f ev Hinv) as (f1 & -> & Hinv1). by apply IH.
Qed.

(** No sequence of events makes the widget throw, and the invariant holds
    after each of them. *)
Lemma run_Inv (items : Items) (evs : list Event) :
  exists f, run items evs = Ok f /\ Inv f.
Proof.
  unfold run. destruct (mount_spec items) as (f0 & -> & Hinv & _).
  by apply steps_Inv.
Qed.

Lemma run_Ok_Inv (items : Items) (evs : list Event) (f : ListWidget.Fiber) :
  run items evs = Ok f -> Inv f.
Proof.
  intros Hrun. destruct (run_Inv items evs) as (f' & Hrun' & Hinv). congruence.
Qed.

(** ** Selection by click *)

Lemma Z_of_nat_eqb (p i : nat) : Z.eqb (Z.of_nat p) (Z.of_nat i) = bool_decide (i = p).
Proof.
  case_bool_decide as H.
  - subst. apply Z.eqb_refl.
  - apply Z.eqb_neq. lia.
Qed.

(** The props of row [i] of a settled fiber, read off the source of the
    [map] callback. *)
Lemma Settled_row_props f i rf :
  Settled f -> rows f !! i = Some rf ->
  exists item,
    entries (props f) !! i = Some item
    /\ key rf = item_id item
    /\ memoizedProps rf
       = mkProps (VNum (Z.of_nat i))
           (VBool (loose_eq (selectedIndex f) (VNum (Z.of_nat i))))
           (VFun (handler f)) (VStr (item_text item))
    /\ output rf
       = mkLi (if loose_eq (selectedIndex f) (VNum (Z.of_nat i)) then "green" else "red")
           (Arrow (VFun (handler f)) (VNum (Z.of_nat i)))
           (VStr (item_text item)).
Proof.
  intros Hs Hrf.
  destruct (Settled_row f i Hs rf Hrf) as (item & Hitem & Hkey & Hprops & Hok).
  exists item. repeat split; auto.
  by rewrite (row_output _ rf Hprops Hok).
Qed.

(** C1.  In any state the widget can reach, with a non-empty collection
    rendered, a click on the row at position [p] makes the selection state
    [p]; afterwards there is still one row per entry, the row at position
    [p] receives [isSelected = true] and every other row receives
    [isSelected = false] (and is drawn accordingly). *)
Theorem C1_click_selects_exactly_the_clicked_row
    (items : Items) (evs : list Event) (f : ListWidget.Fiber) (p : nat) :
  run items evs = Ok f ->
  entries (props f) <> [] ->
  p < length (entries (props f)) ->
  exists f',
    step f (Click p) = Ok f'
    /\ selectedIndex f' = VNum (Z.of_nat p)
    /\ length (rows f') = length (entries (props f))
    /\ forall i rf, rows f' !! i = Some rf ->
         index (memoizedProps rf) = VNum (Z.of_nat i)
         /\ isSelected (memoizedProps rf) = VBool (bool_decide (i = p))
         /\ backgroundColor (output rf) = (if bool_decide (i = p) then "green" else "red").
Proof.
  intros Hrun _ Hp.
  pose proof (run_Ok_Inv _ _ _ Hrun) as Hinv.
  destruct (step_Click_spec f p Hinv) as (f' & Hstep & Hinv' & Hprops & Hsel & _).
  { by rewrite (Settled_length f (inv_settled f Hinv)). }
  exists f'. split; [exact Hstep|]. split; [exact Hsel|].
  pose proof (inv_settled f' Hinv') as Hs'.
  split; [by rewrite (Settled_length f' Hs'), Hprops|].
  intros i rf Hrf.
  destruct (Settled_row_props f' i rf Hs' Hrf) as (item & _ & _ & Hmp & Hout).
  rewrite Hsel, loose_eq_number, Z_of_nat_eqb in Hmp, Hout.
  by rewrite Hmp, Hout.
Qed.

Lemma C1_witness :
  run fruits [] = Ok fruits_mounted
  /\ exists f',
       step fruits_mounted (Click 1) = Ok f'
       /\ selectedIndex f' = VNum 1
       /\ length (rows f') = 2
       /\ forall i rf, rows f' !! i = Some rf ->
            index (memoizedProps rf) = VNum (Z.of_nat i)
            /\ isSelected (memoizedProps rf) = VBool (bool_decide (i = 1))
            /\ backgroundColor (output rf)
               = (if bool_decide (i = 1) then "green" else "red").
Proof.
  split; [reflexivity|].
  apply (C1_click_selects_exactly_the_clicked_row fruits [] fruits_mounted 1).
  - reflexivity.
  - simpl. discriminate.
  - simpl. lia.
Defined.

(** The scenario of the README: two rows, both unselected; a click on
    "Banana" selects it alone; replacing the collection by a single
    "Cherry" clears the selection. *)
Example scenario_apple_banana_cherry :
  view (final fruits []) = [("a", VStr "Apple", "red"); ("b", VStr "Banana", "red")]
  /\ view (final fruits [Click 1])
     = [("a", VStr "Apple", "red"); ("b", VStr "Banana", "green")]
  /\ view (final fruits [Click 1; SetItems (ItemsArray 2 [mkEntry "c" "Cherry"])])
     = [("c", VStr "Cherry", "red")]
  /\ selectedIndex (final fruits [Click 1; SetItems (ItemsArray 2 [mkEntry "c" "Cherry"])])
     = VNull.
Proof. repeat split; vm_compute; reflexivity. Qed.

(** ** One row per entry *)

(** C2.  Whenever the rendered collection is not empty, the element
    returned by [List] is a container whose children are one row element
    per entry, in the order of the collection; the key of each is the [id]
    of its entry and its text the entry's [text].  The mounted rows match
    these elements one for one. *)
Theorem C2_one_row_per_entry_keyed_by_id
    (items : Items) (evs : list Event) (f : ListWidget.Fiber) :
  run items evs = Ok f ->
  entries (props f) <> [] ->
  exists ul,
    element f = Some ul
    /\ map el_key (children ul) = map item_id (entries (props f))
    /\ map (fun el => text (el_props el)) (children ul)
       = map (fun item => VStr (item_text item)) (entries (props f))
    /\ map key (rows f) = map item_id (entries (props f))
    /\ map (fun rf => li_children (output rf)) (rows f)
       = map (fun item => VStr (item_text item)) (entries (props f)).
Proof.
  intros Hrun Hne.
  pose proof (inv_settled f (run_Ok_Inv _ _ _ Hrun)) as Hs.
  pose proof (settled_element f Hs) as Hel.
  rewrite <- entries_defaultProps in Hne |- *.
  destruct (defaultProps (props f)) as [| |r [|e elems]] eqn:Hdp; simpl in Hne; try done.
  unfold rendered_element in Hel. eexists. split; [exact Hel|].
  assert (Hrows : forall i rf, rows f !! i = Some rf ->
            exists item, (e :: elems) !! i = Some item
              /\ key rf = item_id item
              /\ li_children (output rf) = VStr (item_text item)).
  { intros i rf Hrf.
    destruct (Settled_row_props f i rf Hs Hrf) as (item & Hitem & Hk & _ & Hout).
    rewrite <- entries_defaultProps, Hdp in Hitem.
    exists item. repeat split; auto. by rewrite Hout. }
  assert (Hlen : length (rows f) = length (e :: elems)).
  { rewrite (Settled_length f Hs), <- entries_defaultProps, Hdp. done. }
  cbn [children entries].
  repeat split.
  - apply list_eq. intros i. rewrite !list_lookup_fmap, list_lookup_imap.
    by destruct ((e :: elems) !! i).
  - apply list_eq. intros i. rewrite !list_lookup_fmap, list_lookup_imap.
    by destruct ((e :: elems) !! i).
  - apply list_eq. intros i. rewrite !list_lookup_fmap.
    destruct (rows f !! i) as [rf|] eqn:Hrf.
    + destruct (Hrows i rf Hrf) as (item & Hi & Hk & _).
      rewrite Hi. simpl. by rewrite Hk.
    + apply lookup_ge_None in Hrf. rewrite Hlen in Hrf.
      by rewrite (lookup_ge_None_2 _ _ Hrf).
  - apply list_eq. intros i. rewrite !list_lookup_fmap.
    destruct (rows f !! i) as [rf|] eqn:Hrf.
    + destruct (Hrows i rf Hrf) as (item & Hi & _ & Ht).
      rewrite Hi. simpl. by rewrite Ht.
    + apply lookup_ge_None in Hrf. rewrite Hlen in Hrf.
      by rewrite (lookup_ge_None_2 _ _ Hrf).
Qed.

Lemma C2_witness :
  run fruits [] = Ok fruits_mounted
  /\ exists ul,
       element fruits_mounted = Some ul
       /\ map el_key (children ul) = ["a"; "b"]
       /\ map (fun el => text (el_props el)) (children ul)
          = [VStr "Apple"; VStr "Banana"]
       /\ map key (rows fruits_mounted) = ["a"; "b"]
       /\ map (fun rf => li_children (output rf)) (rows fruits_mounted)
          = [VStr "Apple"; VStr "Banana"].
Proof.
  split; [reflexivity|].
  apply (C2_one_row_per_entry_keyed_by_id fruits [] fruits_mounted).
  - reflexivity.
  - simpl. discriminate.
Defined.

(** ** Absent and empty collections *)

Lemma absent_or_empty_entries items :
  absent_or_empty items = true -> entries items = [].
Proof. by destruct items as [| |r [|e elems]]. Qed.

(** C3.  When [items] is [undefined], [null] or has length zero, the
    component returns [null] (no [ul] element, not even an empty one), on
    the first render and on every later one, and no row is mounted. *)
Theorem C3_absent_or_empty_renders_nothing (items : Items) :
  absent_or_empty items = true ->
  (forall h n, r_element (WrappedListComponent (defaultProps items) h n) = None)
  /\ (exists f, mount items = Ok f /\ element f = None /\ rows f = [])
  /\ (forall items0 evs f,
        run items0 evs = Ok f -> props f = items ->
        element f = None /\ rows f = [] /\ view f = []).
Proof.
  intros Habs.
  assert (Hnone : forall s c, rendered_element s c (defaultProps items) = None).
  { intros s c. by destruct items as [| |r [|e elems]]. }
  assert (Hsettled : forall f, Settled f -> props f = items ->
            element f = None /\ rows f = []).
  { intros f Hs Hp. split.
    - rewrite (settled_element f Hs), Hp. apply Hnone.
    - apply nil_length_inv.
      by rewrite (Settled_length f Hs), Hp, absent_or_empty_entries. }
  split; [|split].
  - intros h n. rewrite WrappedListComponent_element. apply Hnone.
  - destruct (mount_spec items) as (f & Hm & Hinv & Hp & _).
    exists f. split; [exact Hm|]. apply Hsettled; [apply Hinv | exact Hp].
  - intros items0 evs f Hrun Hp.
    destruct (Hsettled f (inv_settled f (run_Ok_Inv _ _ _ Hrun)) Hp) as [He Hr].
    repeat split; auto. unfold view. by rewrite Hr.
Qed.

Lemma C3_witness :
  absent_or_empty (ItemsArray 7 []) = true
  /\ (forall h n,
        r_element (WrappedListComponent (defaultProps (ItemsArray 7 [])) h n) = None)
  /\ (exists f, mount (ItemsArray 7 []) = Ok f /\ element f = None /\ rows f = [])
  /\ (forall items0 evs f,
        run items0 evs = Ok f -> props f = ItemsArray 7 [] ->
        element f = None /\ rows f = [] /\ view f = []).
Proof.
  split; [reflexivity|].
  apply (C3_absent_or_empty_renders_nothing (ItemsArray 7 [])). reflexivity.
Defined.

(** ** Resetting the selection *)

(** C4.  The selection is "none" after the mount.  In any reachable state,
    rendering [List] with an [items] value that is not the same reference
    as the current one ([Object.is] fails: this includes a new array with
    the same contents) leaves the selection at "none".  No other event
    takes a state with a selected row to the state "none". *)
Theorem C4_items_change_resets_selection
    (items : Items) (evs : list Event) (f : ListWidget.Fiber) :
  run items evs = Ok f ->
  (exists f0, mount items = Ok f0 /\ selectedIndex f0 = VNull)
  /\ (forall items',
        items_is (props f) items' = false ->
        exists f', step f (SetItems items') = Ok f'
                   /\ props f' = items' /\ selectedIndex f' = VNull)
  /\ (forall r r' elems,
        props f = ItemsArray r elems -> r' <> r ->
        exists f', step f (SetItems (ItemsArray r' elems)) = Ok f'
                   /\ selectedIndex f' = VNull)
  /\ (forall ev f',
        step f ev = Ok f' ->
        selectedIndex f <> VNull -> selectedIndex f' = VNull ->
        exists items', ev = SetItems items' /\ items_is (props f) items' = false).
Proof.
  intros Hrun. pose proof (run_Ok_Inv _ _ _ Hrun) as Hinv.
  split; [|split; [|split]].
  - destruct (mount_spec items) as (f0 & Hm & _ & _ & Hsel). eauto.
  - intros items' Hne.
    destruct (step_SetItems_spec f items' Hinv Hne) as (f' & Hstep & _ & Hp & Hsel).
    eauto.
  - intros r r' elems Hp Hr.
    destruct (step_SetItems_spec f (ItemsArray r' elems) Hinv) as (f' & Hstep & _ & _ & Hsel).
    { rewrite Hp. simpl. apply Nat.eqb_neq. congruence. }
    eauto.
  - intros ev f' Hstep Hsome Hnone. destruct ev as [items'|k].
    + exists items'. split; [reflexivity|].
      destruct (items_is (props f) items') eqn:His; [|reflexivity].
      simpl in Hstep. rewrite His in Hstep. congruence.
    + exfalso. destruct (decide (k < length (rows f))) as [Hk|Hk].
      * destruct (step_Click_spec f k Hinv Hk) as (f'' & Hstep' & _ & _ & Hsel & _).
        congruence.
      * simpl in Hstep. rewrite lookup_ge_None_2 in Hstep by lia. congruence.
Qed.

Lemma C4_witness :
  run fruits [Click 1] = Ok banana_selected
  /\ selectedIndex banana_selected = VNum 1
  /\ exists f',
       step banana_selected
         (SetItems (ItemsArray 2 [mkEntry "a" "Apple"; mkEntry "b" "Banana"])) = Ok f'
       /\ selectedIndex f' = VNull.
Proof.
  split; [reflexivity|]. split; [reflexivity|].
  destruct (C4_items_change_resets_selection fruits [Click 1] banana_selected eq_refl)
    as (_ & _ & Hsame & _).
  apply (Hsame 1 2 [mkEntry "a" "Apple"; mkEntry "b" "Banana"]).
  - reflexivity.
  - discriminate.
Defined.

(** ** The comparison behind [isSelected] *)




(** ** One click handler *)

(** C6.  Every render allocates a new arrow function, but whatever the
    events, the handler found in the props of every row element and of
    every mounted row is the closure allocated by the mounting render: one
    reference for all rows and for all renders. *)
Theorem C6_one_stable_click_handler (items : Items) (evs : list Event) :
  exists f,
    run items evs = Ok f
    /\ handleClick_cell (hooks f) = Some (HandleClickClosure 0)
    /\ (forall ul el,
          element f = Some ul -> el ∈ children ul ->
          onClickHandler (el_props el) = VFun (HandleClickClosure 0))
    /\ (forall rf,
          rf ∈ rows f ->
          onClickHandler (memoizedProps rf) = VFun (HandleClickClosure 0)
          /\ onClick (output rf) = Arrow (VFun (HandleClickClosure 0)) (index (memoizedProps rf))).
Proof.
  destruct (run_Inv items evs) as (f & Hrun & [Hs Hh _ _]).
  exists f. split; [exact Hrun|]. split; [|split].
  - rewrite (settled_hooks f Hs). simpl. by rewrite Hh.
  - intros ul el Hul Hel.
    rewrite (settled_element f Hs), Hh in Hul.
    destruct (defaultProps (props f)) as [| |r [|e elems]]; simpl in Hul; try done.
    injection Hul as <-. cbn [children] in Hel.
    change (row_element (selectedIndex f) (HandleClickClosure 0) 0 e
            :: imap (row_element (selectedIndex f) (HandleClickClosure 0) ∘ S) elems)
      with (imap (row_element (selectedIndex f) (HandleClickClosure 0)) (e :: elems)) in Hel.
    apply elem_of_lookup_imap_1 in Hel as (i & item & -> & _). reflexivity.
  - intros rf Hrf. apply list_elem_of_lookup in Hrf as [i Hrf].
    destruct (Settled_row_props f i rf Hs Hrf) as (item & _ & _ & Hmp & Hout).
    rewrite Hmp, Hout, Hh. by split.
Qed.

(** The handler is not the function of the latest render: after a click
    two closures have been allocated and the rows still hold the first. *)
Example handler_outlives_renders :
  allocated banana_selected = 2
  /\ map (fun rf => onClickHandler (memoizedProps rf)) (rows banana_selected)
     = [VFun (HandleClickClosure 0); VFun (HandleClickClosure 0)].
Proof. split; reflexivity. Qed.

(** ** Calls of the handler *)

(** C7.  Rendering a row makes no call at all and cannot throw; a click on
    the rendered element calls [onClickHandler] once, with the row's
    [index].  In the mounted list, whatever the events, every recorded
    invocation of a callback happened in a click event, on the list's
    handler, with the position of a row as argument. *)
Theorem C7_handler_called_on_click_only (p : Props) :
  (exists li,
     WrappedSingleListItem p = ([], Ok li)
     /\ click li = call (onClickHandler p) (index p)
     /\ forall c, onClickHandler p = VFun c ->
          click li = ([mkCall c (index p)], Ok VUndefined))
  /\ forall items evs,
       exists f, run items evs = Ok f
         /\ Forall (fun pc => fst pc = ClickEvent
                      /\ callee (snd pc) = HandleClickClosure 0
                      /\ exists k : nat, argument (snd pc) = VNum (Z.of_nat k))
              (calls f).
Proof.
  split.
  - eexists. split; [reflexivity|]. split; [reflexivity|].
    intros c Hc. unfold click. simpl. by rewrite Hc.
  - intros items evs. destruct (run_Inv items evs) as (f & Hrun & [_ _ _ Hc]).
    exists f. split; [exact Hrun | exact Hc].
Qed.

Lemma C7_witness :
  exists li,
    WrappedSingleListItem
      (mkProps (VNum 1) (VBool false) (VFun (Opaque 5)) (VStr "Banana")) = ([], Ok li)
    /\ click li = ([mkCall (Opaque 5) (VNum 1)], Ok VUndefined).
Proof.
  destruct (C7_handler_called_on_click_only
              (mkProps (VNum 1) (VBool false) (VFun (Opaque 5)) (VStr "Banana")))
    as [(li & Hrender & _ & Hclick) _].
  exists li. split; [exact Hrender|]. apply Hclick. reflexivity.
Defined.

(** The component before fix 7 behaves otherwise: it calls the handler
    while it renders. *)
Example before_fix_calls_during_render :
  fst (WrappedSingleListItem_before_fix
         (mkProps (VNum 1) (VBool false) (VFun (HandleClickClosure 0)) (VStr "Banana")))
  = [mkCall (HandleClickClosure 0) (VNum 1)].
Proof. reflexivity. Qed.

(** ** Rows that are not rendered again *)

Lemma update_total (old : list SingleListItem.Fiber) (el : Element) :
  exists rf, update old el = ret rf.
Proof.
  unfold update. destruct (List.find _ old) as [rf|]; [|by eexists].
  destruct (shallowEqual _ _); by eexists.
Qed.

Lemma reconcile_lookup (old : list SingleListItem.Fiber) (els : list Element) rfs :
  reconcile old els = ret rfs ->
  forall i el, els !! i = Some el ->
  exists rf, rfs !! i = Some rf /\ update old el = ret rf.
Proof.
  revert rfs. induction els as [|el0 els IH]; intros rfs Hrec i el Hel; [done|].
  simpl in Hrec.
  destruct (update_total old el0) as (rf0 & Hup). rewrite Hup in Hrec. simpl in Hrec.
  destruct (reconcile old els) as [cs [rfs'|e]] eqn:Hrest; simpl in Hrec;
    [|discriminate].
  injection Hrec as Hcs <-.
  rewrite app_nil_r in Hcs. subst cs.
  destruct i as [|i]; simpl in Hel |- *.
  - injection Hel as <-. eauto.
  - eapply IH; eauto.
Qed.

(** With distinct keys, looking a mounted row up by its key finds it. *)
Lemma find_by_key (old : list SingleListItem.Fiber) i rf :
  NoDup (map key old) ->
  old !! i = Some rf ->
  List.find (fun r => String.eqb (key r) (key rf)) old = Some rf.
Proof.
  revert i. induction old as [|r old IH]; intros i Hnd Hi; [done|].
  simpl in Hnd. apply NoDup_cons in Hnd as [Hnotin Hnd].
  destruct i as [|i]; simpl in Hi |- *.
  - injection Hi as ->. by rewrite String.eqb_refl.
  - destruct (String.eqb (key r) (key rf)) eqn:Hk.
    + apply String.eqb_eq in Hk. exfalso. apply Hnotin. rewrite Hk.
      apply list_elem_of_fmap. exists rf. split; [done|].
      apply list_elem_of_lookup. eauto.
    + eapply IH; eauto.
Qed.

Lemma Settled_keys f : Settled f -> map key (rows f) = map item_id (entries (props f)).
Proof.
  intros Hs. apply list_eq. intros i. rewrite !list_lookup_fmap.
  destruct (rows f !! i) as [rf|] eqn:Hrf.
  - destruct (Settled_row_props f i rf Hs Hrf) as (item & Hi & Hk & _).
    rewrite Hi. simpl. by rewrite Hk.
  - apply lookup_ge_None in Hrf. rewrite (Settled_length f Hs) in Hrf.
    by rewrite (lookup_ge_None_2 _ _ Hrf).
Qed.

(** In the mounted list with distinct ids, a click re-renders at most the
    row that becomes selected and the row that was: every other mounted
    row is kept as it is, render count included. *)
Lemma click_keeps_unaffected_rows (f f' : ListWidget.Fiber) (p : nat) :
  Inv f ->
  NoDup (map item_id (entries (props f))) ->
  step f (Click p) = Ok f' ->
  forall i rf,
    rows f !! i = Some rf ->
    i <> p -> selectedIndex f <> VNum (Z.of_nat i) ->
    rows f' !! i = Some rf.
Proof.
  intros Hinv Hnd Hstep i rf Hrf Hip Hsel.
  pose proof (inv_settled f Hinv) as Hs.
  destruct (decide (p < length (rows f))) as [Hp|Hp].
  2:{ simpl in Hstep. rewrite lookup_ge_None_2 in Hstep by lia. congruence. }
  destruct (step_Click_spec f p Hinv Hp) as (f'' & Hstep' & _ & _ & _ & _ & Hrows).
  assert (f'' = f') as -> by congruence.
  destruct Hrows as [-> | Hrec]; [exact Hrf|].
  destruct (Settled_row_props f i rf Hs Hrf) as (item & Hitem & Hkey & Hmp & _).
  rewrite rendered_children_imap, entries_defaultProps in Hrec.
  destruct (reconcile_lookup _ _ _ Hrec i
              (row_element (VNum (Z.of_nat p)) (HandleClickClosure 0) i item))
    as (rf' & Hrf' & Hup).
  { by rewrite list_lookup_imap, Hitem. }
  rewrite Hrf'. f_equal.
  assert (Hfind : List.find
            (fun r => String.eqb (key r)
               (el_key (row_element (VNum (Z.of_nat p)) (HandleClickClosure 0) i item)))
            (rows f) = Some rf).
  { simpl. rewrite <- Hkey. eapply find_by_key; [|exact Hrf].
    by rewrite (Settled_keys f Hs). }
  unfold update in Hup. rewrite Hfind in Hup.
  assert (Hsame : shallowEqual (memoizedProps rf)
            (el_props (row_element (VNum (Z.of_nat p)) (HandleClickClosure 0) i item))
          = true).
  { apply shallowEqual_eq. rewrite Hmp, (inv_handler f Hinv). simpl.
    rewrite loose_eq_number, Z_of_nat_eqb, bool_decide_eq_false_2 by done.
    destruct (inv_selected f Hinv) as [-> | (k & _ & Hk)]; [done|].
    rewrite Hk, loose_eq_number, Z_of_nat_eqb, bool_decide_eq_false_2; [done|].
    intros ->. by apply Hsel. }
  rewrite Hsame in Hup. unfold ret in Hup. congruence.
Qed.

(** ** Missing props *)

(** C9, counterexample.  A row whose [onClickHandler] was not passed: the
    check reports it, rendering succeeds, and a click on the element
    throws. *)
Lemma C9_counterexample :
  let p := mkProps (VNum 0) (VBool false) VUndefined (VStr "Apple") in
  checkPropTypes p = [MissingRequired "onClickHandler"]
  /\ exists li,
       WrappedSingleListItem p = ([], Ok li)
       /\ click li = ([], Throw (TypeError "onClickHandler is not a function")).
Proof. split; [reflexivity|]. eexists. split; reflexivity. Qed.

(** C9, amended.  When a required prop of a row is missing, the check of
    the prop types reports it, and rendering still returns an element
    without throwing and without calling anything: a missing [isSelected]
    gives the unselected colour, a missing [text] an element without text.
    When [onClickHandler] is not a function, in particular when it is the
    missing prop, a click on the element throws a [TypeError]. *)
Theorem C9_missing_prop_warns_and_rendering_proceeds (p : Props) (name : string) :
  name ∈ map fst propTypes ->
  get_prop p name = VUndefined ->
  MissingRequired name ∈ checkPropTypes p
  /\ exists li,
       WrappedSingleListItem p = ([], Ok li)
       /\ (name = "isSelected" -> backgroundColor li = "red")
       /\ (name = "text" -> li_children li = VUndefined)
       /\ ((forall c, onClickHandler p <> VFun c) ->
             click li = ([], Throw (TypeError "onClickHandler is not a function")))
       /\ (name = "onClickHandler" ->
             click li = ([], Throw (TypeError "onClickHandler is not a function"))).
Proof.
  intros Hname Hmissing. destruct p as [i s h t].
  assert (Hcases : name = "index" \/ name = "isSelected"
                   \/ name = "onClickHandler" \/ name = "text").
  { simpl in Hname. rewrite !elem_of_cons, elem_of_nil in Hname. tauto. }
  split.
  - unfold checkPropTypes. cbn [flat_map propTypes fst snd].
    rewrite !elem_of_app.
    destruct Hcases as [-> | [-> | [-> | ->]]]; cbn in Hmissing; subst; cbn;
      rewrite ?elem_of_cons; tauto.
  - eexists. split; [reflexivity|]. cbn.
    repeat split.
    + intros ->. cbn in Hmissing. by subst.
    + intros ->. cbn in Hmissing. by subst.
    + intros Hnot. unfold click. cbn. destruct h; try reflexivity. by destruct (Hnot c).
    + intros ->. cbn in Hmissing. by subst.
Qed.

Lemma C9_witness :
  let p := mkProps (VNum 0) VUndefined (VFun (HandleClickClosure 0)) (VStr "Apple") in
  MissingRequired "isSelected" ∈ checkPropTypes p
  /\ exists li, WrappedSingleListItem p = ([], Ok li) /\ backgroundColor li = "red".
Proof.
  intros p.
  destruct (C9_missing_prop_warns_and_rendering_proceeds p "isSelected")
    as (Hwarn & li & Hrender & Hcolour & _).
  - cbn. rewrite !elem_of_cons. tauto.
  - reflexivity.
  - split; [exact Hwarn|]. exists li. split; auto.
Defined.

(** ** The handler checks no range *)

(** C10.  The handler is invoked by the rows with their position, a
    number.  It validates nothing: in any reachable state, for every
    integer [p], in range or not, [handleClick p] makes the selection
    state [p]; the rows stay as many and row [i] receives
    [isSelected = true] exactly when [p] is [i].  So when [p] is the
    position of no mounted row (negative, or not below their number, as a
    position left over from a longer collection is), every row receives
    [isSelected = false]. *)
Theorem C10_handler_stores_any_position
    (items : Items) (evs : list Event) (f : ListWidget.Fiber) (p : Z) :
  run items evs = Ok f ->
  exists f',
    handleClick (VNum p) f = Ok f'
    /\ selectedIndex f' = VNum p
    /\ length (rows f') = length (rows f)
    /\ (forall i rf, rows f' !! i = Some rf ->
          isSelected (memoizedProps rf) = VBool (Z.eqb p (Z.of_nat i)))
    /\ ((p < 0 \/ Z.of_nat (length (rows f)) <= p)%Z ->
        forall i rf, rows f' !! i = Some rf ->
          isSelected (memoizedProps rf) = VBool false).
Proof.
  intros Hrun. pose proof (inv_settled f (run_Ok_Inv _ _ _ Hrun)) as Hs.
  destruct (handleClick_spec f (VNum p) Hs) as (f' & Hh & Hs' & Hsel & Hp & _).
  exists f'. split; [exact Hh|]. split; [exact Hsel|].
  assert (Hlen : length (rows f') = length (rows f)).
  { by rewrite (Settled_length f' Hs'), (Settled_length f Hs), Hp. }
  assert (Hflag : forall i rf, rows f' !! i = Some rf ->
            isSelected (memoizedProps rf) = VBool (Z.eqb p (Z.of_nat i))).
  { intros i rf Hrf.
    destruct (Settled_row_props f' i rf Hs' Hrf) as (item & _ & _ & Hmp & _).
    by rewrite Hmp, Hsel. }
  split; [exact Hlen|]. split; [exact Hflag|].
  intros Hout i rf Hrf. rewrite (Hflag i rf Hrf). f_equal.
  apply Z.eqb_neq. apply lookup_lt_Some in Hrf. lia.
Qed.

Lemma C10_witness :
  run fruits [Click 1; SetItems (ItemsArray 2 [mkEntry "c" "Cherry"])] = Ok cherry_only
  /\ length (rows cherry_only) = 1
  /\ exists f',
       handleClick (VNum 1) cherry_only = Ok f'
       /\ selectedIndex f' = VNum 1
       /\ forall i rf, rows f' !! i = Some rf ->
            isSelected (memoizedProps rf) = VBool false.
Proof.
  split; [reflexivity|]. split; [reflexivity|].
  destruct (C10_handler_stores_any_position fruits
              [Click 1; SetItems (ItemsArray 2 [mkEntry "c" "Cherry"])]
              cherry_only 1 eq_refl)
    as (f' & Hh & Hsel & _ & _ & Hnone).
  exists f'. split; [exact Hh|]. split; [exact Hsel|].
  apply Hnone. right. simpl. lia.
Defined.

(** * Further properties of the two components *)

(** ** Render passes in detail *)

(** What [render_loop] does, pass by pass: the first pass reconciles the
    mounted rows with the children of the current state; a second pass,
    with the state [null], follows exactly when the effect is due and
    finds a selection to clear. *)
Lemma render_loop_passes (n : nat) (f : ListWidget.Fiber) :
  Forall row_ok (rows f) ->
  exists f' rows1,
    render_loop (S (S n)) f = Ok f'
    /\ reconcile (rows f)
         (rendered_children (selectedIndex f) (handler f) (defaultProps (props f)))
       = ret rows1
    /\ Forall2 row_of
         (rendered_children (selectedIndex f) (handler f) (defaultProps (props f)))
         rows1
    /\ ((effect_needed f && negb (Object_is (selectedIndex f) VNull) = false
         /\ rows f' = rows1
         /\ render_count f' = S (render_count f)
         /\ allocated f' = S (allocated f))
        \/ (effect_needed f && negb (Object_is (selectedIndex f) VNull) = true
            /\ reconcile rows1
                 (rendered_children VNull (handler f) (defaultProps (props f)))
               = ret (rows f')
            /\ render_count f' = S (S (render_count f))
            /\ allocated f' = S (S (allocated f)))).
Proof.
  intros Hok.
  destruct (render_commit_spec f Hok) as (rows1 & Hrc & Hrows1 & Hrec1).
  cbn [render_loop]. rewrite Hrc.
  set (f1 := mkListFiber _ _ _ rows1 _ _ _) in *.
  destruct (effect_needed f) eqn:Heff.
  - change (selectedIndex f1) with (selectedIndex f).
    destruct (Object_is (selectedIndex f) VNull) eqn:Hnull.
    + exists f1, rows1. repeat split; auto.
    + assert (Hok1 : Forall row_ok (rows (with_state VNull f1))).
      { simpl. eapply Forall2_row_of_ok, Hrows1. }
      destruct (render_commit_spec (with_state VNull f1) Hok1)
        as (rows2 & Hrc2 & _ & Hrec2).
      rewrite Hrc2.
      assert (Hno : effect_needed (with_state VNull f1) = false).
      { unfold effect_needed. simpl. by rewrite items_is_refl. }
      rewrite Hno.
      eexists _, rows1. split; [reflexivity|]. split; [exact Hrec1|].
      split; [exact Hrows1|]. right. repeat split; auto.
  - exists f1, rows1. repeat split; auto.
Qed.

Lemma Settled_effect_needed_state f v :
  Settled f -> effect_needed (with_state v f) = false.
Proof.
  intros [H _ _]. unfold effect_needed. simpl. rewrite H. simpl.
  by rewrite items_is_refl.
Qed.

(** The handler renders once, unless it is given the value already
    stored, in which case it does nothing. *)
Lemma handleClick_passes (f f' : ListWidget.Fiber) (p : JsVal) :
  Settled f ->
  handleClick p f = Ok f' ->
  (selectedIndex f = p /\ f' = f)
  \/ (selectedIndex f <> p
      /\ render_count f' = S (render_count f)
      /\ allocated f' = S (allocated f)
      /\ reconcile (rows f) (rendered_children p (handler f) (defaultProps (props f)))
         = ret (rows f')).
Proof.
  intros Hs. unfold handleClick, setSelectedIndex.
  destruct (Object_is (selectedIndex f) p) eqn:Hsame.
  - apply Object_is_eq in Hsame. intros [= <-]. by left.
  - intros Hrun. right. split.
    { intros Heq. apply Object_is_eq in Heq. congruence. }
    change NESTED_UPDATE_LIMIT with (S (S 48)) in Hrun.
    destruct (render_loop_passes 48 (with_state p f))
      as (f'' & rows1 & Hrun' & Hrec & _ & Hcase).
    { change (Forall row_ok (rows f)). apply Settled_row_ok, Hs. }
    assert (f'' = f') as -> by congruence.
    rewrite (Settled_effect_needed_state f p Hs) in Hcase.
    destruct Hcase as [(_ & Hrows & Hcount & Halloc) | (Hcontra & _)]; [|done].
    repeat split; auto. by rewrite Hrows.
Qed.

(** A click on a mounted row is one call of the list's handler with the
    position of the row. *)
Lemma step_Click_unfold (f : ListWidget.Fiber) (k : nat) :
  Inv f ->
  k < length (rows f) ->
  step f (Click k)
  = handleClick (VNum (Z.of_nat k))
      (log ClickEvent [mkCall (HandleClickClosure 0) (VNum (Z.of_nat k))] f).
Proof.
  intros [Hs Hh _ _] Hk. simpl.
  destruct (lookup_lt_is_Some_2 (rows f) k Hk) as [rf Hrf]. rewrite Hrf.
  destruct (Settled_row f k Hs rf Hrf) as (item & _ & _ & Hprops & Hok).
  rewrite (row_output _ rf Hprops Hok), Hh. simpl.
  unfold run_call. simpl.
  by destruct (handleClick _ _).
Qed.

Lemma step_outside (f : ListWidget.Fiber) (k : nat) :
  ~ k < length (rows f) -> step f (Click k) = Ok f.
Proof. intros Hk. simpl. by rewrite lookup_ge_None_2 by lia. Qed.

(** ** What one event invokes *)

Lemma step_calls (f f' : ListWidget.Fiber) (ev : Event) :
  Inv f ->
  step f ev = Ok f' ->
  calls f' = calls f ++ invocations f ev.
Proof.
  intros Hinv Hstep. pose proof (inv_settled f Hinv) as Hs.
  destruct ev as [items'|k]; unfold invocations.
  - rewrite app_nil_r. cbn [step] in Hstep.
    destruct (items_is (props f) items') eqn:His; [by injection Hstep as <-|].
    destruct (items_is (defaultProps (props f)) (defaultProps items')) eqn:Hres;
      [by injection Hstep as <-|].
    change NESTED_UPDATE_LIMIT with (S (S 48)) in Hstep.
    destruct (render_loop_spec 48 (with_props items' f))
      as (f1 & Hrun1 & _ & _ & _ & _ & Hc & _).
    { change (Forall row_ok (rows f)). by apply Settled_row_ok. }
    assert (f1 = f') as -> by congruence. exact Hc.
  - case_bool_decide as Hk.
    + rewrite (step_Click_unfold f k Hinv Hk) in Hstep.
      set (c := mkCall _ _) in *.
      destruct (handleClick_spec _ (VNum (Z.of_nat k)) (Settled_log ClickEvent [c] f Hs))
        as (f1 & Hrun1 & _ & _ & _ & _ & Hc & _).
      assert (f1 = f') as -> by congruence. by rewrite Hc.
    + rewrite (step_outside f k Hk) in Hstep. injection Hstep as <-.
      by rewrite app_nil_r.
Qed.

(** X3.  In a reachable state, a click on a mounted row invokes the
    list's handler exactly once, with the position of the row, and invokes
    nothing else; a click elsewhere and a change of [items] invoke
    nothing. *)
Theorem event_invocations
    (items : Items) (evs : list Event) (f f' : ListWidget.Fiber) (ev : Event) :
  run items evs = Ok f ->
  step f ev = Ok f' ->
  calls f' = calls f ++
    match ev with
    | SetItems _ => []
    | Click k =>
        if bool_decide (k < length (rows f))
        then [(ClickEvent, mkCall (HandleClickClosure 0) (VNum (Z.of_nat k)))]
        else []
    end.
Proof.
  intros Hrun Hstep.
  exact (step_calls f f' ev (run_Ok_Inv _ _ _ Hrun) Hstep).
Qed.

Lemma event_invocations_witness :
  run fruits [] = Ok fruits_mounted
  /\ calls banana_selected
     = calls fruits_mounted ++ [(ClickEvent, mkCall (HandleClickClosure 0) (VNum 1))].
Proof.
  split; [reflexivity|].
  apply (event_invocations fruits [] fruits_mounted banana_selected (Click 1) eq_refl).
  vm_compute. reflexivity.
Defined.

(** ** Prop types of the rows *)

Lemma validate_nil (name : string) (t : PropType) (x : JsVal) :
  validate name (mkValidator t true) x = [] <-> has_type t x = true.
Proof.
  destruct x, t; simpl; split; intros H; try done.
Qed.

(** X6.  The check of a row's props reports nothing exactly when [index]
    is a number, [isSelected] a boolean, [onClickHandler] a function and
    [text] a string; otherwise it reports between one and four warnings,
    at most one per prop. *)
Theorem row_props_accepted_iff_well_typed (p : Props) :
  (checkPropTypes p = []
   <-> typeof (index p) = TNumber
       /\ typeof (isSelected p) = TBoolean
       /\ typeof (onClickHandler p) = TFunction
       /\ typeof (text p) = TString)
  /\ length (checkPropTypes p) <= 4.
Proof.
  destruct p as [i s h t]. unfold checkPropTypes.
  cbn [flat_map propTypes fst snd get_prop String.eqb Ascii.eqb Bool.eqb
       index isSelected onClickHandler text].
  rewrite app_nil_r. split.
  - rewrite !app_nil, !validate_nil. unfold has_type.
    destruct i, s, h, t; simpl; intuition congruence.
  - rewrite !length_app.
    assert (Hone : forall n ty x, length (validate n (mkValidator ty true) x) <= 1).
    { intros n ty x. unfold validate. simpl. destruct x; try done;
        destruct (has_type ty _); simpl; lia. }
    pose proof (Hone "index" PT_number i). pose proof (Hone "isSelected" PT_bool s).
    pose proof (Hone "onClickHandler" PT_func h). pose proof (Hone "text" PT_string t).
    lia.
Qed.

(** X7.  The props [List] hands to its rows always pass the rows' check:
    in no reachable state does a mounted row carry props that would raise
    a warning. *)
Theorem rows_never_warn (items : Items) (evs : list Event) :
  exists f,
    run items evs = Ok f
    /\ forall rf, rf ∈ rows f -> checkPropTypes (memoizedProps rf) = [].
Proof.
  destruct (run_Inv items evs) as (f & Hrun & Hinv).
  exists f. split; [exact Hrun|].
  intros rf Hrf. apply list_elem_of_lookup in Hrf as [i Hrf].
  destruct (Settled_row_props f i rf (inv_settled f Hinv) Hrf) as (item & _ & _ & -> & _).
  reflexivity.
Qed.

(** ** Which rows a render runs again *)

Lemma ret_inj {A} (a b : A) : @ret A a = ret b -> a = b.
Proof. unfold ret. congruence. Qed.

(** The three outcomes of updating one child against rows with distinct
    keys: kept, rendered again, or mounted. *)
Lemma update_kept (old : list SingleListItem.Fiber) i rf (el : Element) :
  NoDup (map key old) -> old !! i = Some rf ->
  key rf = el_key el -> memoizedProps rf = el_props el ->
  update old el = ret rf.
Proof.
  intros Hnd Hi Hk Hp. unfold update.
  rewrite <- Hk, (find_by_key old i rf Hnd Hi).
  assert (Hsame : shallowEqual (memoizedProps rf) (el_props el) = true)
    by by apply shallowEqual_eq.
  by rewrite Hsame.
Qed.

Lemma update_rendered_again (old : list SingleListItem.Fiber) i rf (el : Element) :
  NoDup (map key old) -> old !! i = Some rf ->
  key rf = el_key el -> memoizedProps rf <> el_props el ->
  exists rf', update old el = ret rf'
              /\ key rf' = key rf
              /\ memoizedProps rf' = el_props el
              /\ renders rf' = S (renders rf).
Proof.
  intros Hnd Hi Hk Hp. unfold update.
  rewrite <- Hk, (find_by_key old i rf Hnd Hi).
  destruct (shallowEqual (memoizedProps rf) (el_props el)) eqn:Hsame.
  - apply shallowEqual_eq in Hsame. contradiction.
  - eexists. split; [reflexivity|]. by repeat split.
Qed.

Lemma update_mounted (old : list SingleListItem.Fiber) (el : Element) :
  el_key el ∉ map key old ->
  exists rf', update old el = ret rf'
              /\ key rf' = el_key el
              /\ memoizedProps rf' = el_props el
              /\ renders rf' = 1.
Proof.
  intros Hnew. unfold update.
  destruct (List.find _ old) as [rf|] eqn:Hfind.
  - apply find_key in Hfind as [Hin Hk]. exfalso. apply Hnew.
    rewrite <- Hk. apply list_elem_of_fmap. eauto.
  - eexists. split; [reflexivity|]. by repeat split.
Qed.

Lemma reconcile_pass (old : list SingleListItem.Fiber) s c (elems : list Entry) rows' :
  reconcile old (imap (row_element s c) elems) = ret rows' ->
  forall i item, elems !! i = Some item ->
  exists rf', rows' !! i = Some rf' /\ update old (row_element s c i item) = ret rf'.
Proof.
  intros Hrec i item Hitem.
  apply (reconcile_lookup _ _ _ Hrec i). by rewrite list_lookup_imap, Hitem.
Qed.

Lemma row_of_keys s c (elems : list Entry) (rfs : list SingleListItem.Fiber) :
  Forall2 row_of (imap (row_element s c) elems) rfs ->
  map key rfs = map item_id elems.
Proof.
  intros H. apply list_eq. intros i. rewrite !list_lookup_fmap.
  destruct (rfs !! i) as [rf|] eqn:Hrf.
  - destruct (Forall2_lookup_r _ _ _ _ _ H Hrf) as (el & Hel & Hk & _).
    apply list_lookup_imap_Some in Hel as (item & Hitem & ->).
    rewrite Hitem. simpl. by rewrite Hk.
  - apply lookup_ge_None in Hrf.
    rewrite <- (Forall2_length _ _ _ H), length_imap in Hrf.
    by rewrite (lookup_ge_None_2 _ _ Hrf).
Qed.

(** The flag of row [i] when the state is [null] or a position. *)
Lemma flag_of_selection (f : ListWidget.Fiber) (i : nat) :
  Inv f ->
  loose_eq (selectedIndex f) (VNum (Z.of_nat i))
  = Object_is (selectedIndex f) (VNum (Z.of_nat i)).
Proof. intros Hinv. by destruct (inv_selected f Hinv) as [-> | (k & _ & ->)]. Qed.

(** X8.  With distinct ids, a click on a row that is not the selected one
    runs the row component again for exactly two rows at most: the clicked
    row and the row that was selected.  Each of them is rendered once
    more; every other mounted row is left as it is, with the same element
    and the same render count.  No row is unmounted or mounted anew. *)
Theorem click_renders_only_the_two_affected_rows
    (items : Items) (evs : list Event) (f : ListWidget.Fiber) (p : nat) :
  run items evs = Ok f ->
  NoDup (map item_id (entries (props f))) ->
  p < length (rows f) ->
  selectedIndex f <> VNum (Z.of_nat p) ->
  exists f',
    step f (Click p) = Ok f'
    /\ length (rows f') = length (rows f)
    /\ forall i rf, rows f !! i = Some rf ->
         exists rf',
           rows f' !! i = Some rf'
           /\ key rf' = key rf
           /\ (i = p \/ selectedIndex f = VNum (Z.of_nat i) ->
               renders rf' = S (renders rf))
           /\ (i <> p -> selectedIndex f <> VNum (Z.of_nat i) -> rf' = rf).
Proof.
  intros Hrun Hnd Hp Hsel. pose proof (run_Ok_Inv _ _ _ Hrun) as Hinv.
  pose proof (inv_settled f Hinv) as Hs.
  destruct (step_Click_spec f p Hinv Hp) as (f' & Hstep & Hinv' & Hprops & _).
  exists f'. split; [exact Hstep|].
  split.
  { by rewrite (Settled_length f' (inv_settled f' Hinv')), Hprops, (Settled_length f Hs). }
  rewrite (step_Click_unfold f p Hinv Hp) in Hstep.
  set (c := mkCall _ _) in Hstep.
  destruct (handleClick_passes _ _ _ (Settled_log ClickEvent [c] f Hs) Hstep)
    as [(Hsame & _) | (_ & _ & _ & Hrec)]; [done|].
  change (rows (log ClickEvent [c] f)) with (rows f) in Hrec.
  change (handler (log ClickEvent [c] f)) with (handler f) in Hrec.
  change (props (log ClickEvent [c] f)) with (props f) in Hrec.
  rewrite rendered_children_imap, entries_defaultProps in Hrec.
  assert (Hkeys : NoDup (map key (rows f))) by by rewrite (Settled_keys f Hs).
  intros i rf Hrf.
  destruct (Settled_row_props f i rf Hs Hrf) as (item & Hitem & Hkey & Hmp & _).
  destruct (reconcile_pass _ _ _ _ _ Hrec i item Hitem) as (rf' & Hrf' & Hup).
  exists rf'. split; [exact Hrf'|].
  rewrite (flag_of_selection f i Hinv) in Hmp.
  destruct (decide (i = p)) as [->|Hip].
  - (* the clicked row: its flag goes from false to true *)
    destruct (update_rendered_again (rows f) p rf
                (row_element (VNum (Z.of_nat p)) (handler f) p item) Hkeys Hrf Hkey)
      as (r & Hr & Hk & _ & Hn).
    { rewrite Hmp. simpl. rewrite loose_eq_number, Z.eqb_refl.
      destruct (Object_is (selectedIndex f) (VNum (Z.of_nat p))) eqn:His; [|congruence].
      apply Object_is_eq in His. contradiction. }
    rewrite Hup in Hr. apply ret_inj in Hr as <-. repeat split; auto. done.
  - destruct (Object_is (selectedIndex f) (VNum (Z.of_nat i))) eqn:His.
    + (* the row that was selected: its flag goes from true to false *)
      destruct (update_rendered_again (rows f) i rf
                  (row_element (VNum (Z.of_nat p)) (handler f) i item) Hkeys Hrf Hkey)
        as (r & Hr & Hk & _ & Hn).
      { rewrite Hmp. simpl. rewrite loose_eq_number.
        assert (Z.eqb (Z.of_nat p) (Z.of_nat i) = false) as -> by (apply Z.eqb_neq; lia).
        congruence. }
      rewrite Hup in Hr. apply ret_inj in Hr as <-. repeat split; auto.
      intros _ Hne. apply Object_is_eq in His. contradiction.
    + (* any other row: same props, kept *)
      assert (Hkept : update (rows f) (row_element (VNum (Z.of_nat p)) (handler f) i item)
                      = ret rf).
      { apply (update_kept (rows f) i rf
                 (row_element (VNum (Z.of_nat p)) (handler f) i item) Hkeys Hrf Hkey).
        rewrite Hmp. simpl. rewrite loose_eq_number.
        by assert (Z.eqb (Z.of_nat p) (Z.of_nat i) = false) as -> by (apply Z.eqb_neq; lia). }
      rewrite Hup in Hkept. apply ret_inj in Hkept as ->. repeat split; auto.
      intros [Hc | Hc]; [done|]. apply Object_is_eq in Hc. congruence.
Qed.

Lemma click_renders_only_the_two_affected_rows_witness :
  run vegetables [Click 1] = Ok leek_selected
  /\ exists f',
       step leek_selected (Click 2) = Ok f'
       /\ map renders (rows leek_selected) = [1; 2; 1]
       /\ map renders (rows f') = [1; 3; 2].
Proof.
  split; [reflexivity|].
  destruct (click_renders_only_the_two_affected_rows vegetables [Click 1]
              leek_selected 2 eq_refl) as (f' & Hstep & _ & _).
  - simpl.
    repeat (apply NoDup_cons; split;
            [rewrite ?elem_of_cons, elem_of_nil; intros H; intuition discriminate|]).
    apply NoDup_nil_2.
  - simpl. lia.
  - discriminate.
  - exists f'. split; [exact Hstep|]. split; [reflexivity|].
    vm_compute in Hstep. injection Hstep as <-. reflexivity.
Defined.

(** ** Rows across a replacement of the collection *)

(** X9.  When [items] is replaced by another array (ids distinct before
    and after), rows follow their ids: an entry that keeps its id, its
    text and its position, and was not the selected one, keeps its mounted
    row untouched (not rendered again); an entry whose id is new gets a
    row mounted for it, rendered once, or twice when it appears at the
    position that was selected (first with the old selection, then again
    after the effect has cleared it). *)
Theorem replacement_follows_ids
    (items : Items) (evs : list Event) (f : ListWidget.Fiber) (items' : Items) :
  run items evs = Ok f ->
  items_is (props f) items' = false ->
  NoDup (map item_id (entries (props f))) ->
  NoDup (map item_id (entries items')) ->
  exists f',
    step f (SetItems items') = Ok f'
    /\ (forall i item rf,
          entries (props f) !! i = Some item ->
          entries items' !! i = Some item ->
          rows f !! i = Some rf ->
          selectedIndex f <> VNum (Z.of_nat i) ->
          rows f' !! i = Some rf)
    /\ (forall i item,
          entries items' !! i = Some item ->
          item_id item ∉ map item_id (entries (props f)) ->
          exists rf',
            rows f' !! i = Some rf'
            /\ key rf' = item_id item
            /\ renders rf'
               = if Object_is (selectedIndex f) (VNum (Z.of_nat i)) then 2 else 1).
Proof.
  intros Hrun Hne Hnd Hnd'. pose proof (run_Ok_Inv _ _ _ Hrun) as Hinv.
  pose proof (inv_settled f Hinv) as Hs.
  destruct (step_SetItems_spec f items' Hinv Hne) as (f' & Hstep & _).
  exists f'. split; [exact Hstep|].
  cbn [step] in Hstep. rewrite Hne in Hstep.
  destruct (items_is (defaultProps (props f)) (defaultProps items')) eqn:Hsame.
  { (* [undefined] for [null]: nothing is rendered before or after *)
    injection Hstep as <-.
    destruct (resolved_same_null _ _ Hne Hsame) as [_ Hnew]. split.
    - intros i item rf _ _ Hrf _. exact Hrf.
    - intros i item Hitem _. rewrite <- entries_defaultProps, Hnew in Hitem.
      simpl in Hitem. by rewrite lookup_nil in Hitem. }
  change NESTED_UPDATE_LIMIT with (S (S 48)) in Hstep.
  destruct (render_loop_passes 48 (with_props items' f))
    as (f'' & rows1 & Hrun' & Hrec1 & Hrows1 & Hcase).
  { change (Forall row_ok (rows f)). by apply Settled_row_ok. }
  assert (f'' = f') as -> by congruence. clear Hrun'.
  change (rows (with_props items' f)) with (rows f) in Hrec1.
  change (selectedIndex (with_props items' f)) with (selectedIndex f) in *.
  change (handler (with_props items' f)) with (handler f) in *.
  change (props (with_props items' f)) with items' in *.
  rewrite (Settled_effect_needed f items' Hs) in Hcase.
  rewrite rendered_children_imap, entries_defaultProps in *.
  assert (Hkeys : NoDup (map key (rows f))) by by rewrite (Settled_keys f Hs).
  assert (Hkeys1 : NoDup (map key rows1)) by by rewrite (row_of_keys _ _ _ _ Hrows1).
  split.
  - (* an entry that stays where it is *)
    intros i item rf Hold Hnew Hrf Hsel.
    destruct (Settled_row_props f i rf Hs Hrf) as (item0 & Hitem0 & Hkey & Hmp & _).
    assert (item0 = item) as -> by congruence.
    assert (Hflag : loose_eq (selectedIndex f) (VNum (Z.of_nat i)) = false).
    { rewrite (flag_of_selection f i Hinv).
      destruct (Object_is (selectedIndex f) (VNum (Z.of_nat i))) eqn:His; [|done].
      apply Object_is_eq in His. contradiction. }
    destruct (reconcile_pass _ _ _ _ _ Hrec1 i item Hnew) as (rf1 & Hrf1 & Hup1).
    rewrite (update_kept (rows f) i rf
               (row_element (selectedIndex f) (handler f) i item) Hkeys Hrf Hkey Hmp) in Hup1.
    apply ret_inj in Hup1 as <-.
    destruct Hcase as [(_ & -> & _) | (_ & Hrec2 & _)]; [exact Hrf1|].
    destruct (reconcile_pass _ _ _ _ _ Hrec2 i item Hnew) as (rf2 & Hrf2 & Hup2).
    rewrite (update_kept rows1 i rf
               (row_element VNull (handler f) i item) Hkeys1 Hrf1 Hkey) in Hup2.
    { apply ret_inj in Hup2 as <-. exact Hrf2. }
    rewrite Hmp. simpl. by rewrite Hflag.
  - (* an entry with a new id *)
    intros i item Hnew Hfresh.
    destruct (reconcile_pass _ _ _ _ _ Hrec1 i item Hnew) as (rf1 & Hrf1 & Hup1).
    destruct (update_mounted (rows f) (row_element (selectedIndex f) (handler f) i item))
      as (r & Hr & Hk1 & Hmp1 & Hn1).
    { cbn [el_key row_element]. rewrite (Settled_keys f Hs). exact Hfresh. }
    rewrite Hup1 in Hr. apply ret_inj in Hr as <-.
    assert (Hresolved : items_is (defaultProps (props f)) (defaultProps items') = false).
    { destruct (items_is (defaultProps (props f)) (defaultProps items')) eqn:Hres; [|done].
      clear -Hres Hne Hnew.
      destruct (props f) as [| |r0 e0], items' as [| |r1 e1];
        cbn in Hres, Hne, Hnew; rewrite ?lookup_nil in Hnew; congruence. }
    rewrite Hresolved in Hcase. simpl in Hcase.
    destruct Hcase as [(Hnull & -> & _) | (Hnull & Hrec2 & _)].
    + exists rf1. split; [exact Hrf1|]. split; [exact Hk1|].
      apply negb_false_iff, Object_is_eq in Hnull. by rewrite Hnull, Hn1.
    + destruct (reconcile_pass _ _ _ _ _ Hrec2 i item Hnew) as (rf2 & Hrf2 & Hup2).
      exists rf2. split; [exact Hrf2|].
      rewrite <- (flag_of_selection f i Hinv).
      destruct (loose_eq (selectedIndex f) (VNum (Z.of_nat i))) eqn:Hflag.
      * destruct (update_rendered_again rows1 i rf1
                    (row_element VNull (handler f) i item) Hkeys1 Hrf1 Hk1)
          as (r & Hr & Hk2 & _ & Hn2).
        { rewrite Hmp1. simpl. rewrite Hflag, loose_eq_null_number. congruence. }
        rewrite Hup2 in Hr. apply ret_inj in Hr as <-.
        split; [by rewrite Hk2, Hk1|]. by rewrite Hn2, Hn1.
      * rewrite (update_kept rows1 i rf1
                   (row_element VNull (handler f) i item) Hkeys1 Hrf1 Hk1) in Hup2.
        { apply ret_inj in Hup2 as <-. by split. }
        rewrite Hmp1. simpl. by rewrite Hflag.
Qed.

Lemma replacement_follows_ids_witness :
  run fruits [Click 1] = Ok banana_selected
  /\ exists f',
       step banana_selected
         (SetItems (ItemsArray 2 [mkEntry "a" "Apple"; mkEntry "c" "Cherry"])) = Ok f'
       /\ rows f' !! 0 = rows banana_selected !! 0
       /\ exists rf', rows f' !! 1 = Some rf' /\ key rf' = "c" /\ renders rf' = 2.
Proof.
  split; [reflexivity|].
  destruct (replacement_follows_ids fruits [Click 1] banana_selected
              (ItemsArray 2 [mkEntry "a" "Apple"; mkEntry "c" "Cherry"]) eq_refl)
    as (f' & Hstep & Hkept & Hnew).
  - reflexivity.
  - simpl.
    repeat (apply NoDup_cons; split;
            [rewrite ?elem_of_cons, elem_of_nil; intros H; intuition discriminate|]).
    apply NoDup_nil_2.
  - simpl.
    repeat (apply NoDup_cons; split;
            [rewrite ?elem_of_cons, elem_of_nil; intros H; intuition discriminate|]).
    apply NoDup_nil_2.
  - exists f'. split; [exact Hstep|]. split.
    + apply (Hkept 0 (mkEntry "a" "Apple")); try reflexivity. discriminate.
    + apply (Hnew 1 (mkEntry "c" "Cherry")); [reflexivity|].
      simpl. rewrite !elem_of_cons, elem_of_nil. intros H. intuition discriminate.
Defined.

(** ** The check of [items] *)

Lemma check_field_None (n : nat) (field : string) (x : JsVal) :
  check_field n field x = None <-> exists s, x = VStr s.
Proof.
  unfold check_field. destruct x; simpl; split;
    try discriminate; try (intros [? ?]; discriminate); eauto.
Qed.

Lemma check_field_position (n : nat) (field : string) (x : JsVal) w :
  check_field n field x = Some w -> warned_position w = Some n.
Proof. unfold check_field. destruct x; simpl; intros [= <-]; reflexivity. Qed.

Lemma check_shape_None (n : nat) (e : RawEntry) :
  check_shape n e = None <-> entry_accepted e.
Proof.
  unfold entry_accepted. destruct e as [|i t|v]; simpl.
  - split; auto.
  - destruct (check_field n "text" t) eqn:Ht.
    + split; [discriminate|]. intros [H | (a & b & [= -> ->])]; [discriminate|].
      discriminate.
    + apply check_field_None in Ht as [b ->]. rewrite check_field_None. split.
      * intros [a ->]. right. eauto.
      * intros [H | (a & b' & [= -> _])]; [discriminate | eauto].
  - split; [discriminate|]. intros [H | (a & b & H)]; discriminate.
Qed.

Lemma check_shape_position (n : nat) (e : RawEntry) w :
  check_shape n e = Some w -> warned_position w = Some n.
Proof.
  destruct e as [|i t|v]; simpl; try discriminate.
  - destruct (check_field n "text" t) eqn:Ht.
    + intros [= <-]. eapply check_field_position, Ht.
    + apply check_field_position.
  - by intros [= <-].
Qed.

Lemma check_arrayOf_None (n : nat) (es : list RawEntry) :
  check_arrayOf n es = None <-> Forall entry_accepted es.
Proof.
  revert n. induction es as [|e es IH]; intros n; simpl.
  - split; auto.
  - rewrite Forall_cons, <- (IH (S n)), <- (check_shape_None n).
    destruct (check_shape n e); split; try done; intros [? ?]; done.
Qed.

Lemma check_arrayOf_Some (n : nat) (es : list RawEntry) w :
  check_arrayOf n es = Some w ->
  exists i e,
    warned_position w = Some (n + i)
    /\ es !! i = Some e
    /\ ~ entry_accepted e
    /\ forall j e', j < i -> es !! j = Some e' -> entry_accepted e'.
Proof.
  revert n. induction es as [|e es IH]; intros n; simpl; [discriminate|].
  destruct (check_shape n e) as [w'|] eqn:Hshape.
  - intros [= <-]. exists 0, e. rewrite Nat.add_0_r.
    split; [eapply check_shape_position, Hshape|]. split; [reflexivity|].
    split; [|intros j e' Hj; lia].
    rewrite <- (check_shape_None n), Hshape. discriminate.
  - intros Hrest. destruct (IH (S n) Hrest) as (i & e0 & Hpos & Hi & Hbad & Hbefore).
    exists (S i), e0. split; [rewrite Hpos; f_equal; lia|]. split; [exact Hi|].
    split; [exact Hbad|].
    intros [|j] e' Hj Hj'; simpl in Hj'.
    + injection Hj' as <-. by apply (check_shape_None n).
    + apply (Hbefore j e'); [lia | exact Hj'].
Qed.

(** X11.  The check of the [items] prop reports nothing exactly when
    [items] is absent or is an array whose every element is absent or an
    object with a string [id] and a string [text].  When it reports a
    warning about a position, the element there is the first one that is
    not of that shape.  Every collection of the data model passes. *)
Theorem items_accepted_iff_well_shaped (raw : RawItems) :
  (check_items raw = None
   <-> raw = RawAbsent \/ exists es, raw = RawArray es /\ Forall entry_accepted es)
  /\ (forall w i,
        check_items raw = Some w -> warned_position w = Some i ->
        exists es e,
          raw = RawArray es
          /\ es !! i = Some e
          /\ ~ entry_accepted e
          /\ forall j e', j < i -> es !! j = Some e' -> entry_accepted e')
  /\ (forall items : Items, check_items (raw_of items) = None).
Proof.
  split; [|split].
  - destruct raw as [|es|v]; simpl.
    + split; auto.
    + rewrite check_arrayOf_None. split.
      * intros H. right. eauto.
      * intros [H | (es' & [= <-] & H)]; [discriminate | exact H].
    + split; [discriminate|]. intros [H | (es' & H & _)]; discriminate.
  - intros w i Hw Hi. destruct raw as [|es|v]; simpl in Hw; try discriminate.
    + destruct (check_arrayOf_Some 0 es w Hw) as (i' & e & Hpos & He & Hbad & Hbefore).
      rewrite Hpos in Hi. injection Hi as <-. exists es, e. by repeat split.
    + injection Hw as <-. discriminate.
  - intros items. destruct items as [| |r es]; simpl; try reflexivity.
    apply check_arrayOf_None, Forall_fmap, Forall_forall.
    intros e _. right. unfold raw_of_entry. simpl. eauto.
Qed.

(** An entry without [id] is reported, with its position and the field;
    the elements after it are not looked at. *)
Example entry_without_id_is_reported :
  check_items
    (RawArray [EntryObject (VStr "a") (VStr "Apple");
               EntryObject VUndefined (VStr "Banana");
               EntryNotObject (VNum 3)])
  = Some (FieldRequired 1 "id").
Proof. reflexivity. Qed.

(** ** Rows whose props do not change *)

Lemma update_result (old : list SingleListItem.Fiber) (el : Element) rf' :
  update old el = ret rf' ->
  key rf' = el_key el /\ memoizedProps rf' = el_props el.
Proof.
  unfold update.
  destruct (List.find _ old) as [rf|] eqn:Hfind.
  - apply find_key in Hfind as [_ Hk].
    destruct (shallowEqual (memoizedProps rf) (el_props el)) eqn:Hsame.
    + apply shallowEqual_eq in Hsame. intros H. apply ret_inj in H as <-. by split.
    + simpl. intros H. apply ret_inj in H as <-. by split.
  - simpl. intros H. apply ret_inj in H as <-. by split.
Qed.

Lemma reconcile_lookup_r (old : list SingleListItem.Fiber) (els : list Element) rfs :
  reconcile old els = ret rfs ->
  forall i rf', rfs !! i = Some rf' ->
  exists el, els !! i = Some el /\ update old el = ret rf'.
Proof.
  revert rfs. induction els as [|el0 els IH]; intros rfs Hrec i rf' Hi.
  - simpl in Hrec. apply ret_inj in Hrec as <-. by rewrite lookup_nil in Hi.
  - simpl in Hrec.
    destruct (update_total old el0) as (rf0 & Hup). rewrite Hup in Hrec. simpl in Hrec.
    destruct (reconcile old els) as [cs [rfs'|e]] eqn:Hrest; simpl in Hrec;
      [|discriminate].
    injection Hrec as Hcs <-. rewrite app_nil_r in Hcs. subst cs.
    destruct i as [|i]; simpl in Hi |- *.
    + injection Hi as <-. eauto.
    + eapply IH; eauto.
Qed.

Lemma same_key_same_row (l : list SingleListItem.Fiber) rf rf' :
  NoDup (map key l) -> rf ∈ l -> rf' ∈ l -> key rf' = key rf -> rf' = rf.
Proof.
  intros Hnd [i Hi]%list_elem_of_lookup [j Hj]%list_elem_of_lookup Hk.
  assert (i = j) as ->.
  { eapply NoDup_lookup; [exact Hnd| |];
      rewrite list_lookup_fmap; [rewrite Hi | rewrite Hj]; simpl; by rewrite ?Hk. }
  congruence.
Qed.

(** One pass over rows with distinct keys keeps every row whose element
    comes back with the same key and the same props. *)
Lemma pass_keeps (old rows' : list SingleListItem.Fiber) (els : list Element) rf rf' :
  NoDup (map key old) ->
  reconcile old els = ret rows' ->
  rf ∈ old -> rf' ∈ rows' ->
  key rf' = key rf -> memoizedProps rf' = memoizedProps rf ->
  rf' = rf.
Proof.
  intros Hnd Hrec [j Hj]%list_elem_of_lookup [i Hi]%list_elem_of_lookup Hk Hp.
  destruct (reconcile_lookup_r old els rows' Hrec i rf' Hi) as (el & _ & Hup).
  destruct (update_result old el rf' Hup) as [Hkey Hprops].
  rewrite (update_kept old j rf el Hnd Hj) in Hup; [by apply ret_inj in Hup|congruence..].
Qed.

(** C8.  A mounted row holds nothing but its last props and the element
    rendered from them: in every reachable state the element of each row
    is what the row component returns on the row's props, with no call
    made.  And across any event, with distinct ids before and after, a
    row that comes back under the same key with props that [memo] finds
    equal to the previous ones is not rendered again: it is the very same
    mounted row, with the same element and the same render count. *)
Theorem C8_row_with_unchanged_props_is_not_rendered_again
    (items : Items) (evs : list Event) (f f' : ListWidget.Fiber) (ev : Event) :
  run items evs = Ok f ->
  step f ev = Ok f' ->
  NoDup (map item_id (entries (props f))) ->
  NoDup (map item_id (entries (props f'))) ->
  (forall rf, rf ∈ rows f' ->
     WrappedSingleListItem (memoizedProps rf) = ([], Ok (output rf)))
  /\ (forall rf rf',
        rf ∈ rows f -> rf' ∈ rows f' ->
        key rf' = key rf ->
        shallowEqual (memoizedProps rf) (memoizedProps rf') = true ->
        rf' = rf /\ output rf' = output rf /\ renders rf' = renders rf).
Proof.
  intros Hrun Hstep Hnd Hnd'.
  pose proof (run_Ok_Inv _ _ _ Hrun) as Hinv.
  pose proof (inv_settled f Hinv) as Hs.
  destruct (step_Inv f ev Hinv) as (f'' & Hstep' & Hinv').
  assert (f'' = f') as -> by congruence. clear Hstep'.
  pose proof (inv_settled f' Hinv') as Hs'.
  split.
  { intros rf Hrf. pose proof (Settled_row_ok f' Hs') as Hok.
    rewrite Forall_forall in Hok. exact (Hok rf Hrf). }
  assert (Hkeys : NoDup (map key (rows f))) by by rewrite (Settled_keys f Hs).
  assert (Hsame_list : rows f' = rows f ->
            forall rf rf', rf ∈ rows f -> rf' ∈ rows f' -> key rf' = key rf -> rf' = rf).
  { intros Heq rf rf' Hrf Hrf' Hk. rewrite Heq in Hrf'.
    by apply (same_key_same_row (rows f)). }
  intros rf rf' Hrf Hrf' Hk Hsh. apply shallowEqual_eq in Hsh.
  enough (rf' = rf) as -> by done.
  destruct ev as [items'|k].
  - cbn [step] in Hstep.
    destruct (items_is (props f) items') eqn:His.
    { injection Hstep as <-. by apply Hsame_list. }
    destruct (items_is (defaultProps (props f)) (defaultProps items')) eqn:Hres.
    { injection Hstep as <-. by apply Hsame_list. }
    change NESTED_UPDATE_LIMIT with (S (S 48)) in Hstep.
    destruct (render_loop_passes 48 (with_props items' f))
      as (f'' & rows1 & Hrun' & Hrec1 & Hrows1 & Hcase).
    { change (Forall row_ok (rows f)). by apply Settled_row_ok. }
    assert (f'' = f') as -> by congruence. clear Hrun'.
    assert (Hp' : props f' = items').
    { by destruct (step_SetItems_spec f items' Hinv His) as (f2 & Hstep2 & _ & Hp2 & _);
        cbn [step] in Hstep2; rewrite His, Hres in Hstep2;
        change NESTED_UPDATE_LIMIT with (S (S 48)) in Hstep2;
        assert (f2 = f') as -> by congruence. }
    rewrite Hp' in Hnd'.
    change (rows (with_props items' f)) with (rows f) in Hrec1.
    change (selectedIndex (with_props items' f)) with (selectedIndex f) in *.
    change (handler (with_props items' f)) with (handler f) in *.
    change (props (with_props items' f)) with items' in *.
    rewrite rendered_children_imap, entries_defaultProps in *.
    destruct Hcase as [(_ & Hrows & _) | (_ & Hrec2 & _)].
    + rewrite Hrows in Hrf'.
      by apply (pass_keeps (rows f) rows1 _ rf rf' Hkeys Hrec1).
    + (* two passes: the row is kept by the first and by the second *)
      assert (Hkeys1 : NoDup (map key rows1)) by by rewrite (row_of_keys _ _ _ _ Hrows1).
      apply list_elem_of_lookup in Hrf' as [i Hi].
      destruct (reconcile_lookup_r _ _ _ Hrec2 i rf' Hi) as (el2 & Hel2 & Hup2).
      apply list_lookup_imap_Some in Hel2 as (item & Hitem & ->).
      destruct (update_result _ _ _ Hup2) as [Hk2 Hp2].
      destruct (reconcile_pass _ _ _ _ _ Hrec1 i item Hitem) as (r1 & Hr1 & Hup1).
      apply list_elem_of_lookup in Hrf as [j Hj].
      destruct (Settled_row_props f j rf Hs Hj) as (item0 & _ & _ & Hmp & _).
      assert (Hflag : loose_eq (selectedIndex f) (VNum (Z.of_nat i)) = false).
      { rewrite Hsh, Hp2 in Hmp. cbn in Hmp. injection Hmp as Hij Hfl _.
        apply Nat2Z.inj in Hij. subst j. by rewrite <- Hfl. }
      rewrite (update_kept (rows f) j rf
                 (row_element (selectedIndex f) (handler f) i item) Hkeys Hj) in Hup1.
      * apply ret_inj in Hup1 as <-.
        rewrite (update_kept rows1 i rf
                   (row_element VNull (handler f) i item) Hkeys1 Hr1) in Hup2.
        -- by apply ret_inj in Hup2.
        -- by rewrite <- Hk, Hk2.
        -- by rewrite Hsh, Hp2.
      * by rewrite <- Hk, Hk2.
      * rewrite Hsh, Hp2. cbn. by rewrite Hflag.
  - destruct (decide (k < length (rows f))) as [Hlt|Hge].
    2:{ rewrite (step_outside f k Hge) in Hstep. injection Hstep as <-.
        by apply Hsame_list. }
    rewrite (step_Click_unfold f k Hinv Hlt) in Hstep.
    set (c := mkCall _ _) in Hstep.
    destruct (handleClick_passes _ _ _ (Settled_log ClickEvent [c] f Hs) Hstep)
      as [(_ & ->) | (_ & _ & _ & Hrec)].
    + by apply Hsame_list.
    + change (rows (log ClickEvent [c] f)) with (rows f) in Hrec.
      by apply (pass_keeps (rows f) (rows f') _ rf rf' Hkeys Hrec).
Qed.

Lemma C8_witness :
  run vegetables [Click 1] = Ok leek_selected
  /\ step leek_selected (Click 2) = Ok mint_selected
  /\ forall rf rf',
       rows leek_selected !! 0 = Some rf ->
       rows mint_selected !! 0 = Some rf' ->
       rf' = rf /\ renders rf' = renders rf.
Proof.
  split; [reflexivity|]. split; [reflexivity|].
  intros rf rf' Hrf Hrf'.
  destruct (C8_row_with_unchanged_props_is_not_rendered_again vegetables [Click 1]
              leek_selected mint_selected (Click 2) eq_refl eq_refl)
    as [_ Hkept].
  - simpl.
    repeat (apply NoDup_cons; split;
            [rewrite ?elem_of_cons, elem_of_nil; intros H; intuition discriminate|]).
    apply NoDup_nil_2.
  - simpl.
    repeat (apply NoDup_cons; split;
            [rewrite ?elem_of_cons, elem_of_nil; intros H; intuition discriminate|]).
    apply NoDup_nil_2.
  - destruct (Hkept rf rf') as (H1 & _ & H3).
    + eapply list_elem_of_lookup_2, Hrf.
    + eapply list_elem_of_lookup_2, Hrf'.
    + cbn in Hrf, Hrf'. injection Hrf as <-. injection Hrf' as <-. reflexivity.
    + cbn in Hrf, Hrf'. injection Hrf as <-. injection Hrf' as <-. reflexivity.
    + by split.
Defined.

(** ** At most one flagged row *)

(** X4.  In every render of [List] whose state is [null] or a number (in
    range or not, stale or not), the row element at position [i] is
    flagged [isSelected = true], and the row rendered from it is green,
    exactly when the state is [i]; every other row element is flagged
    [false] and rendered red.  So no render flags two rows. *)
Theorem at_most_one_row_flagged
    (items : Items) (h : Hooks) (n : nat) (s : JsVal) (ul : UlElement) :
  default VNull (selectedIndex_cell h) = s ->
  (s = VNull \/ exists z : Z, s = VNum z) ->
  r_element (WrappedListComponent items h n) = Some ul ->
  (forall i el, children ul !! i = Some el ->
     (isSelected (el_props el) = VBool true <-> s = VNum (Z.of_nat i))
     /\ (isSelected (el_props el) = VBool false <-> s <> VNum (Z.of_nat i))
     /\ exists li,
          WrappedSingleListItem (el_props el) = ([], Ok li)
          /\ (backgroundColor li = "green" <-> s = VNum (Z.of_nat i))
          /\ (backgroundColor li = "red" <-> s <> VNum (Z.of_nat i)))
  /\ (forall i j eli elj,
        children ul !! i = Some eli -> children ul !! j = Some elj ->
        isSelected (el_props eli) = VBool true ->
        isSelected (el_props elj) = VBool true ->
        i = j).
Proof.
  intros Hs Hshape Hul.
  rewrite WrappedListComponent_element, Hs in Hul.
  assert (Hel : forall i el, children ul !! i = Some el ->
            isSelected (el_props el) = VBool (Object_is s (VNum (Z.of_nat i)))).
  { intros i el Hi.
    pose proof (rendered_element_children s
                  (default (HandleClickClosure n) (handleClick_cell h)) items) as Hch.
    rewrite Hul in Hch. rewrite Hch, rendered_children_imap in Hi.
    apply list_lookup_imap_Some in Hi as (item & _ & ->). cbn.
    by destruct Hshape as [-> | [z ->]]. }
  assert (Hiff : forall i, Object_is s (VNum (Z.of_nat i)) = true <-> s = VNum (Z.of_nat i))
    by (intros i; apply Object_is_eq).
  assert (Hrow : forall i el, children ul !! i = Some el ->
            (isSelected (el_props el) = VBool true <-> s = VNum (Z.of_nat i))
            /\ (isSelected (el_props el) = VBool false <-> s <> VNum (Z.of_nat i))
            /\ exists li,
                 WrappedSingleListItem (el_props el) = ([], Ok li)
                 /\ (backgroundColor li = "green" <-> s = VNum (Z.of_nat i))
                 /\ (backgroundColor li = "red" <-> s <> VNum (Z.of_nat i))).
  { intros i el Hi. specialize (Hiff i).
    unfold WrappedSingleListItem, ret. rewrite (Hel i el Hi). cbn.
    destruct (Object_is s (VNum (Z.of_nat i))).
    - assert (s = VNum (Z.of_nat i)) by by apply Hiff.
      split; [done|]. split; [done|]. eexists. split; [reflexivity|]. by split.
    - assert (s <> VNum (Z.of_nat i)) by (intros H; apply Hiff in H; discriminate).
      split; [done|]. split; [done|]. eexists. split; [reflexivity|]. by split. }
  split; [exact Hrow|].
  intros i j eli elj Hi Hj Hsi Hsj.
  apply (Hrow i eli Hi) in Hsi. apply (Hrow j elj Hj) in Hsj.
  rewrite Hsi in Hsj. injection Hsj as H. lia.
Qed.

Lemma at_most_one_row_flagged_witness :
  exists ul,
    r_element (WrappedListComponent fruits (mkHooks (Some (VNum 1)) None None) 0) = Some ul
    /\ map (fun el => isSelected (el_props el)) (children ul) = [VBool false; VBool true]
    /\ forall i j eli elj,
         children ul !! i = Some eli -> children ul !! j = Some elj ->
         isSelected (el_props eli) = VBool true ->
         isSelected (el_props elj) = VBool true ->
         i = j.
Proof.
  eexists. split; [reflexivity|]. split; [reflexivity|].
  eapply (at_most_one_row_flagged fruits (mkHooks (Some (VNum 1)) None None) 0 (VNum 1)).
  - reflexivity.
  - right. by exists 1%Z.
  - reflexivity.
Defined.

(** ** Elements the check accepts and the render does not *)

Lemma map_rows_throws s c (n : nat) (es : list RawEntry) :
  map_rows s c n es = ThrewTypeError <-> EntryAbsent ∈ es.
Proof.
  revert n. induction es as [|e es IH]; intros n; simpl.
  - split; [discriminate | by intros H%elem_of_nil].
  - rewrite elem_of_cons, <- (IH (S n)).
    destruct e as [|i t|v]; simpl.
    + split; auto.
    + destruct (map_rows s c (S n) es);
        (split; [intros H; try discriminate; by right | intros [H|H]; done]).
    + destruct (map_rows s c (S n) es);
        (split; [intros H; try discriminate; by right | intros [H|H]; done]).
Qed.

Lemma map_rows_typed s c (n : nat) (elems : list Entry) :
  map_rows s c n (map raw_of_entry elems)
  = Returned (map raw_element (imap (fun i => row_element s c (n + i)) elems)).
Proof.
  revert n. induction elems as [|e elems IH]; intros n; [reflexivity|].
  cbn [map map_rows raw_of_entry raw_row_element read_id read_text].
  rewrite (IH (S n)). rewrite imap_cons. cbn [map]. rewrite Nat.add_0_r.
  do 3 f_equal. apply imap_ext. intros i x _. simpl. f_equal. lia.
Qed.

Lemma records_iff_accepted_and_present (es : list RawEntry) :
  (Forall entry_accepted es /\ EntryAbsent ∉ es)
  <-> exists elems : list Entry, es = map raw_of_entry elems.
Proof.
  induction es as [|e es IH].
  - split; [by exists [] | intros _; split; [constructor | by intros H%elem_of_nil]].
  - rewrite Forall_cons, not_elem_of_cons. split.
    + intros [[[He | (i & t & ->)] Hall] [Hne Hnot]]; [congruence|].
      destruct (proj1 IH (conj Hall Hnot)) as [elems ->].
      by exists (mkEntry i t :: elems).
    + intros [[|x elems] Heq]; [discriminate|]. injection Heq as -> ->.
      destruct (proj2 IH (ex_intro _ elems eq_refl)) as [Hall Hnot].
      split; [split; [right; unfold raw_of_entry; eauto | exact Hall]|].
      split; [discriminate | exact Hnot].
Qed.

(** X12.  The [map] over the elements of [items] throws a [TypeError]
    exactly when some element is [null] or [undefined], although the check
    of the prop types accepts such elements.  The arrays that pass the
    check and contain no absent element are exactly the arrays of
    [{ id, text }] string records, and on these the [map] returns, in
    order, the row elements of the component's body, each keyed by the
    [id] of its entry. *)
Theorem absent_element_passes_check_and_breaks_render
    (s : JsVal) (c : Closure) (es : list RawEntry) :
  (map_rows s c 0 es = ThrewTypeError <-> EntryAbsent ∈ es)
  /\ ((check_items (RawArray es) = None /\ map_rows s c 0 es <> ThrewTypeError)
      <-> exists elems : list Entry, es = map raw_of_entry elems)
  /\ (forall elems : list Entry,
        es = map raw_of_entry elems ->
        map_rows s c 0 es = Returned (map raw_element (imap (row_element s c) elems)))
  /\ (Forall entry_accepted es -> EntryAbsent ∈ es ->
      check_items (RawArray es) = None /\ map_rows s c 0 es = ThrewTypeError).
Proof.
  split; [apply map_rows_throws|]. split; [|split].
  - rewrite map_rows_throws. cbn [check_items]. rewrite check_arrayOf_None.
    apply records_iff_accepted_and_present.
  - intros elems ->. rewrite map_rows_typed. do 2 f_equal.
  - intros Hall Habs. split; [by apply check_arrayOf_None | by apply map_rows_throws].
Qed.

(** An array holding [null] raises no warning and breaks the render. *)
Example null_element_passes_check_and_throws :
  check_items (RawArray [EntryObject (VStr "a") (VStr "Apple"); EntryAbsent]) = None
  /\ map_rows VNull (HandleClickClosure 0) 0
       [EntryObject (VStr "a") (VStr "Apple"); EntryAbsent] = ThrewTypeError.
Proof. split; reflexivity. Qed.
